(** * Outreach automation agent: a shallow embedding and its properties

    The development follows the layout of the Python package [agent]:

    - [agent/scraper/data_sources.py]   lead source,
    - [agent/emailing/sender.py]        templates and the three senders,
    - [agent/reply_handler/processor.py] simulated reply classification,
    - [agent/slack/notifier.py]         Slack notification,
    - [agent/calendar/booker.py]        meeting slots and booking,
    - [agent/main.py]                   the campaign store and its stages.

    Python strings are modelled by [string] (sequences of 8-bit characters;
    [str.lower] acts on the ASCII letters), Python floats by the rationals
    they denote, the process-wide [random] module and the wall clock by two
    interfaces whose states are threaded explicitly.  [print] and
    [time.sleep] have no effect on any value the program computes and are
    left out. *)

From Stdlib Require Import List String Ascii Bool Arith ZArith QArith Lia.
From Stdlib Require Import Qround DecimalString.
Import ListNotations.

Local Open Scope list_scope.
Local Open Scope string_scope.

(** ** Python string primitives *)

Module Str.

(** [c.lower()] on one character. *)
Definition lower_ascii (c : ascii) : ascii :=
let n := nat_of_ascii c in
if andb (65 <=? n)%nat (n <=? 90)%nat then ascii_of_nat (n + 32) else c.

(** [s.lower()] *)
Fixpoint lower (s : string) : string :=
match s with
| EmptyString => EmptyString
| String c s' => String (lower_ascii c) (lower s')
end.

(** [s.startswith(p)] *)
Fixpoint startswith (p s : string) : bool :=
match p, s with
| EmptyString, _ => true
| String _ _, EmptyString => false
| String a p', String b s' => if Ascii.eqb a b then startswith p' s' else false
end.

(** [sub in s] for two strings. *)
Fixpoint str_in (sub s : string) : bool :=
if startswith sub s then true
else match s with
     | EmptyString => false
     | String _ s' => str_in sub s'
     end.

(** [s.replace("@", "_at_")], the only replacement the senders perform:
  the pattern is one character long. *)
Fixpoint replace_char (old : ascii) (new : string) (s : string) : string :=
match s with
| EmptyString => EmptyString
| String c s' =>
    if Ascii.eqb c old then new ++ replace_char old new s'
    else String c (replace_char old new s')
end.

(** [x in l] for a list of strings. *)
Definition mem (x : string) (l : list string) : bool :=
existsb (String.eqb x) l.

(** [str(n)] for a non-negative integer. *)
Definition of_N (n : N) : string :=
NilEmpty.string_of_uint (N.to_uint n).

End Str.

(** ** Contacts

    [find_companies_and_contacts] builds every contact dictionary with the
    same eight string keys; [enrich_contact_data] later adds ["interests"],
    ["recent_news"] and ["last_activity"].  A contact is therefore a record
    whose last three fields are optional. *)

Record contact : Type := mkContact {
  company : string;
  company_size : string;
  industry : string;
  website : string;
  contact_name : string;
  role : string;
  email : string;
  linkedin_url : string;
  interests : option (list string);
  recent_news : option string;
  last_activity : option string
}.

(** ** agent/scraper/data_sources.py *)

Module Raw.
(** The entries of the two mock data sets. *)
Record person : Type := mkPerson {
  name : string;
  role : string;
  email : string;
  linkedin_url : string
}.

Record company : Type := mkCompany {
  company_name : string;      (* key "company" *)
  industry : string;
  website : string;
  size : string;
  contacts : list person
}.
End Raw.

Definition manufacturing_companies : list Raw.company :=
  [ Raw.mkCompany "Aussie Manufacturing Co" "Manufacturing"
      "www.aussiemfg.com.au" "50-200 employees"
      [ Raw.mkPerson "John Doe" "CFO" "john.doe@example.com"
          "linkedin.com/in/johndoe";
        Raw.mkPerson "Sarah Wilson" "Head of Digital Transformation"
          "sarah.wilson@example.com" "linkedin.com/in/sarahwilson" ];
    Raw.mkCompany "Melbourne Industrial Solutions" "Manufacturing"
      "www.melbourneindustrial.com.au" "200-500 employees"
      [ Raw.mkPerson "Michael Chen" "CFO" "m.chen@example.com"
          "linkedin.com/in/michaelchen";
        Raw.mkPerson "Jessica Taylor" "Digital Transformation Lead"
          "j.taylor@example.com" "linkedin.com/in/jtaylor" ] ].

Definition construction_companies : list Raw.company :=
  [ Raw.mkCompany "BuildRight Constructions" "Construction"
      "www.buildright.com.au" "100-250 employees"
      [ Raw.mkPerson "David Thompson" "CFO" "d.thompson@example.com"
          "linkedin.com/in/davidthompson";
        Raw.mkPerson "Jane Smith" "Digital Transformation Lead"
          "jane.smith@example.com" "linkedin.com/in/janesmith" ];
    Raw.mkCompany "Sydney Builders Group" "Construction"
      "www.sydneybuilders.com.au" "500-1000 employees"
      [ Raw.mkPerson "Robert Johnson" "CFO" "r.johnson@example.com"
          "linkedin.com/in/robertjohnson";
        Raw.mkPerson "Emma Davis" "Head of Digital Transformation"
          "emma.davis@example.com" "linkedin.com/in/emmadavis" ] ].

(** The companies selected by the industry keywords: the two [if]s that
    extend [all_companies]. *)
Definition all_companies (industry_keywords : string) : list Raw.company :=
  let acc := [] in
  let acc := if Str.str_in "manufacturing" (Str.lower industry_keywords)
             then (acc ++ manufacturing_companies)%list else acc in
  let acc := if Str.str_in "construction" (Str.lower industry_keywords)
             then (acc ++ construction_companies)%list else acc in
  acc.

(** The dictionary [contact_info] built for one contact of one company. *)
Definition contact_info (c : Raw.company) (p : Raw.person) : contact :=
  {| company := Raw.company_name c;
     company_size := Raw.size c;
     industry := Raw.industry c;
     website := Raw.website c;
     contact_name := Raw.name p;
     role := Raw.role p;
     email := Raw.email p;
     linkedin_url := Raw.linkedin_url p;
     interests := None;
     recent_news := None;
     last_activity := None |}.

(** The condition of the inner loop:
    [target_roles is None or any(role.lower() in contact["role"].lower()
                                 for role in target_roles)]. *)
Definition role_passes (target_roles : option (list string)) (p : Raw.person)
  : bool :=
  match target_roles with
  | None => true
  | Some roles =>
      existsb (fun r => Str.str_in (Str.lower r) (Str.lower (Raw.role p))) roles
  end.

(** [target_roles=None] is the default argument; [region] only reaches the
    log line. *)
Definition find_companies_and_contacts
    (industry_keywords region : string) (target_roles : option (list string))
  : list contact :=
  fold_left
    (fun result c =>
       let filtered_contacts :=
         fold_left
           (fun filtered p =>
              if role_passes target_roles p
              then (filtered ++ [contact_info c p])%list else filtered)
           (Raw.contacts c) [] in
       (result ++ filtered_contacts)%list)
    (all_companies industry_keywords) [].

(** ** The standard library the program relies on *)

Module Py.

(** [x < y] on floats. *)
Definition Qltb (x y : Q) : bool := negb (Qle_bool y x).

(** [list(range(start, stop, step))] for [step > 0] (and the empty range of
  a negative step with [start <= stop]); the program never passes a zero
  step, for which Python raises. *)
Definition range (start stop step : Z) : list Z :=
if (0 <? step)%Z
then map (fun k => (start + Z.of_nat k * step)%Z)
         (seq 0 (Z.to_nat ((stop - start + step - 1) / step)))
else [].

(** Decimal rendering of a non-negative integer, zero-padded to [width]
  digits: the [%02d] and [%04d] of [strftime] and [isoformat]. *)
Fixpoint zeros (n : nat) : string :=
match n with O => "" | S n' => String "0" (zeros n') end.

Definition zpad (width : nat) (z : Z) : string :=
let s := Str.of_N (Z.to_N z) in
zeros (width - String.length s) ++ s.

(** *** datetime

  A naive [datetime] is its proleptic Gregorian ordinal ([toordinal()],
  day 1 is Monday 0001-01-01) together with the time of day.  The
  [MAXYEAR] bound of Python's dates is not modelled: no date of the
  program lies within seven days of year 9999. *)
Record datetime : Type := mkDatetime {
ordinal : Z;
hour : Z;
minute : Z;
second : Z;
microsecond : Z
}.

Record timedelta : Type := mkTimedelta {
td_days : Z;
td_seconds : Z;
td_microseconds : Z
}.

Definition timedelta_days (d : Z) : timedelta := mkTimedelta d 0 0.
Definition timedelta_minutes (m : Z) : timedelta := mkTimedelta 0 (m * 60) 0.

(** [dt + td]: the sum is normalised to days, seconds and microseconds,
  as [datetime.__add__] does through a [timedelta]. *)
Definition datetime_add (dt : datetime) (td : timedelta) : datetime :=
let us := (microsecond dt + td_microseconds td)%Z in
let secs := (hour dt * 3600 + minute dt * 60 + second dt
             + td_seconds td + us / 1000000)%Z in
let days := (ordinal dt + td_days td + secs / 86400)%Z in
let rem := (secs mod 86400)%Z in
{| ordinal := days;
   hour := rem / 3600;
   minute := (rem mod 3600) / 60;
   second := (rem mod 3600) mod 60;
   microsecond := us mod 1000000 |}.

(** [dt.weekday()]: Monday is 0 and Sunday is 6. *)
Definition weekday (dt : datetime) : Z := ((ordinal dt + 6) mod 7)%Z.

(** [dt.replace(hour=h, minute=0, second=0, microsecond=0)] *)
Definition replace_time (dt : datetime) (h : Z) : datetime :=
{| ordinal := ordinal dt; hour := h; minute := 0; second := 0;
   microsecond := 0 |}.

(** Year, month and day of an ordinal, as [datetime._ord2ymd]. *)
Definition days_before_month (leap : bool) (m : Z) : Z :=
(nth (Z.to_nat m) [0; 0; 31; 59; 90; 120; 151; 181; 212; 243; 273; 304; 334] 0
 + (if andb (2 <? m)%Z leap then 1 else 0))%Z.

Definition days_in_month (leap : bool) (m : Z) : Z :=
(nth (Z.to_nat m) [0; 31; 28; 31; 30; 31; 30; 31; 31; 30; 31; 30; 31] 0
 + (if andb (m =? 2)%Z leap then 1 else 0))%Z.

Definition ord2ymd (n : Z) : Z * Z * Z :=
let n := (n - 1)%Z in
let n400 := (n / 146097)%Z in
let n := (n mod 146097)%Z in
let year := (n400 * 400 + 1)%Z in
let n100 := (n / 36524)%Z in
let n := (n mod 36524)%Z in
let n4 := (n / 1461)%Z in
let n := (n mod 1461)%Z in
let n1 := (n / 365)%Z in
let n := (n mod 365)%Z in
let year := (year + n100 * 100 + n4 * 4 + n1)%Z in
if orb (n1 =? 4)%Z (n100 =? 4)%Z then ((year - 1)%Z, 12%Z, 31%Z)
else
  let leapyear := andb (n1 =? 3)%Z (orb (negb (n4 =? 24)%Z) (n100 =? 3)%Z) in
  let month := Z.shiftr (n + 50) 5 in
  let preceding := days_before_month leapyear month in
  if (n <? preceding)%Z
  then
    let month := (month - 1)%Z in
    let preceding := (preceding - days_in_month leapyear month)%Z in
    (year, month, (n - preceding + 1)%Z)
  else (year, month, (n - preceding + 1)%Z).

(** [dt.strftime('%Y%m%d%H%M')] *)
Definition strftime_compact (dt : datetime) : string :=
let '(y, m, d) := ord2ymd (ordinal dt) in
zpad 4 y ++ zpad 2 m ++ zpad 2 d ++ zpad 2 (hour dt) ++ zpad 2 (minute dt).

(** [dt.isoformat()] *)
Definition isoformat (dt : datetime) : string :=
let '(y, m, d) := ord2ymd (ordinal dt) in
zpad 4 y ++ "-" ++ zpad 2 m ++ "-" ++ zpad 2 d ++ "T"
++ zpad 2 (hour dt) ++ ":" ++ zpad 2 (minute dt) ++ ":" ++ zpad 2 (second dt)
++ (if (microsecond dt =? 0)%Z then "" else "." ++ zpad 6 (microsecond dt)).

End Py.

(** ** The ambient world: random numbers and the clock

    The program draws from the process-wide generator of the [random]
    module and reads the wall clock.  Both are interfaces here; a state of
    each is threaded through every function that uses it. *)

Class RandomSource (G : Type) : Type := {
  (** [random.random()]: a float in [0, 1) *)
  random : G -> Q * G;
  (** the index drawn by [random.choice] among [n] elements and by
      [random.randint] among [n] consecutive integers *)
  randbelow : N -> G -> N * G;
  (** the positions drawn by [random.sample] of [k] among [n] elements *)
  randsample : nat -> nat -> G -> list nat * G;
  randbelow_lt :
    forall n g, (0 < n)%N -> (fst (randbelow n g) < n)%N
}.

Class Clock (C : Type) : Type := {
  (** [time.time()] *)
  time_time : C -> Q * C;
  (** [datetime.now()] *)
  datetime_now : C -> Py.datetime * C
}.

Section Random.
Context {G : Type} `{RandomSource G}.

(** [random.choice(l)]; [d] is never returned for a non-empty [l]. *)
Definition choice {A : Type} (d : A) (l : list A) (g : G) : A * G :=
  let (i, g') := randbelow (N.of_nat (List.length l)) g in
  (nth (N.to_nat i) l d, g').

(** [random.randint(a, b)] *)
Definition randint (a b : N) (g : G) : N * G :=
  let (i, g') := randbelow (b - a + 1)%N g in ((a + i)%N, g').

(** [random.sample(l, k)] *)
Definition sample {A : Type} (d : A) (l : list A) (k : nat) (g : G)
  : list A * G :=
  let (idx, g') := randsample (List.length l) k g in
  (map (fun i => nth i l d) idx, g').
End Random.

(** *** Two concrete instances

    A tape of draws read from a cursor, and a clock that shows the same
    reading at every call. *)

Record Tape : Type := mkTape {
  draws : nat -> Q;
  cursor : nat
}.

Definition tape_random (t : Tape) : Q * Tape :=
  (draws t (cursor t), mkTape (draws t) (S (cursor t))).

Definition tape_randbelow (n : N) (t : Tape) : N * Tape :=
  ((Z.to_N (Qfloor (draws t (cursor t) * inject_Z (Z.of_N n))) mod n)%N,
   mkTape (draws t) (S (cursor t))).

Definition tape_randsample (n k : nat) (t : Tape) : list nat * Tape :=
  (seq 0 (Nat.min k n), mkTape (draws t) (S (cursor t))).

Record FixedClock : Type := mkFixedClock {
  epoch_seconds : Q;
  wall : Py.datetime
}.

#[export] Instance tape_source : RandomSource Tape := {|
  random := tape_random;
  randbelow := tape_randbelow;
  randsample := tape_randsample;
  randbelow_lt := fun n t Hn =>
    N.mod_upper_bound _ n (proj2 (N.neq_0_lt_0 n) Hn)
|}.

#[export] Instance fixed_clock : Clock FixedClock := {|
  time_time := fun c => (epoch_seconds c, c);
  datetime_now := fun c => (wall c, c)
|}.

(** ** Exceptions and results *)

Inductive exn : Type :=
| ValueError (msg : string)
| KeyError (key : string)
| IndexError
| TypeError.

Inductive result (A : Type) : Type :=
| Ok (a : A)
| Raise (e : exn).
Arguments Ok {A} a.
Arguments Raise {A} e.

(** ** str.format

    The values a contact dictionary holds are strings and lists of
    strings.  A format string is cut into literal text and replacement
    fields from left to right; rendering stops at the first field that
    fails, as [str.format] does. *)

Module Format.

Inductive value : Type :=
| VStr (s : string)
| VList (l : list string).

Inductive segment : Type :=
| Lit (s : string)
| Repl (name : string) (index : option string)
| Bad (e : exn).

Definition is_digit (c : ascii) : bool :=
let n := nat_of_ascii c in andb (48 <=? n)%nat (n <=? 57)%nat.

Fixpoint all_digits (s : string) : bool :=
match s with
| EmptyString => true
| String c s' => andb (is_digit c) (all_digits s')
end.

Fixpoint nat_of_digits (acc : nat) (s : string) : nat :=
match s with
| EmptyString => acc
| String c s' => nat_of_digits (10 * acc + (nat_of_ascii c - 48)) s'
end.

(** Splits [s] at the first occurrence of [c]. *)
Fixpoint split_at (c : ascii) (s : string) : string * option string :=
match s with
| EmptyString => (EmptyString, None)
| String a s' =>
    if Ascii.eqb a c then (EmptyString, Some s')
    else let (l, r) := split_at c s' in (String a l, r)
end.

(** A replacement field: [name] or [name[index]].  Attribute access,
  conversions and format specifications do not occur in the templates
  and are rejected. *)
Definition parse_field (f : string) : segment :=
match split_at "[" f with
| (name, None) =>
    if orb (Str.str_in "." name) (orb (Str.str_in "!" name) (Str.str_in ":" name))
    then Bad (ValueError "unsupported replacement field")
    else Repl name None
| (name, Some rest) =>
    match split_at "]" rest with
    | (idx, Some EmptyString) =>
        if String.eqb idx "" then Bad (ValueError "Empty attribute in format string")
        else Repl name (Some idx)
    | (_, Some _) =>
        Bad (ValueError "Only '.' or '[' may follow ']' in format field specifier")
    | (_, None) => Bad (ValueError "Missing ']' in format string")
    end
end.

Inductive mode : Type :=
| InText (lit : string)
| InField (fld : string).

Definition snoc (s : string) (c : ascii) : string := s ++ String c "".

(** The scanner; [{{] and [}}] are the escaped braces. *)
Fixpoint scan (s : string) (m : mode) : list segment :=
match s with
| EmptyString =>
    match m with
    | InText lit => [Lit lit]
    | InField _ => [Bad (ValueError "expected '}' before end of string")]
    end
| String c s' =>
    match m with
    | InText lit =>
        if Ascii.eqb c "{" then
          match s' with
          | String "{" s'' => scan s'' (InText (snoc lit "{"))
          | _ => Lit lit :: scan s' (InField "")
          end
        else if Ascii.eqb c "}" then
          match s' with
          | String "}" s'' => scan s'' (InText (snoc lit "}"))
          | _ => [Lit lit;
                  Bad (ValueError "Single '}' encountered in format string")]
          end
        else scan s' (InText (snoc lit c))
    | InField fld =>
        if Ascii.eqb c "}" then parse_field fld :: scan s' (InText "")
        else scan s' (InField (snoc fld c))
    end
end.

Definition parse (template : string) : list segment := scan template (InText "").

(** [repr] of a list of strings whose elements need no escaping. *)
Definition repr_list (l : list string) : string :=
"[" ++ String.concat ", " (map (fun s => "'" ++ s ++ "'") l) ++ "]".

(** The text a replacement field stands for, given the keyword
  arguments. *)
Definition field_text (kwargs : string -> option value)
  (name : string) (index : option string) : result string :=
if orb (String.eqb name "") (all_digits name) then Raise IndexError
else
  match kwargs name with
  | None => Raise (KeyError name)
  | Some v =>
      match index with
      | None =>
          match v with
          | VStr s => Ok s
          | VList l => Ok (repr_list l)
          end
      | Some idx =>
          if all_digits idx then
            match v with
            | VStr s =>
                match String.get (nat_of_digits 0 idx) s with
                | Some c => Ok (String c "")
                | None => Raise IndexError
                end
            | VList l =>
                match nth_error l (nat_of_digits 0 idx) with
                | Some s => Ok s
                | None => Raise IndexError
                end
            end
          else Raise TypeError
      end
  end.

Fixpoint render (kwargs : string -> option value) (segs : list segment)
: result string :=
match segs with
| [] => Ok ""
| Lit s :: rest =>
    match render kwargs rest with
    | Ok t => Ok (s ++ t)
    | Raise e => Raise e
    end
| Repl name index :: rest =>
    match field_text kwargs name index with
    | Ok s =>
        match render kwargs rest with
        | Ok t => Ok (s ++ t)
        | Raise e => Raise e
        end
    | Raise e => Raise e
    end
| Bad e :: _ => Raise e
end.

(** [template.format] applied to the unpacked dictionary [kwargs] *)
Definition format (template : string) (kwargs : string -> option value)
: result string :=
render kwargs (parse template).

End Format.

(** ** A state monad with exceptions

    A computation takes the state, and returns a value or raises; the
    state it leaves behind is kept in both cases. *)

Definition M (S A : Type) : Type := S -> result A * S.

Definition ret {S A : Type} (a : A) : M S A := fun s => (Ok a, s).

Definition raise {S A : Type} (e : exn) : M S A := fun s => (Raise e, s).

Definition bind {S A B : Type} (c : M S A) (k : A -> M S B) : M S B :=
  fun s =>
    match c s with
    | (Ok a, s') => k a s'
    | (Raise e, s') => (Raise e, s')
    end.

(** A pure step that may raise. *)
Definition lift {S A : Type} (r : result A) : M S A := fun s => (r, s).

(** A step that cannot raise. *)
Definition total {S A : Type} (f : S -> A * S) : M S A :=
  fun s => let (a, s') := f s in (Ok a, s').

Notation "x <- c ;; k" := (bind c (fun x => k))
  (at level 61, c at next level, right associativity).

(** [for a in l: acc = body(acc, a)] *)
Fixpoint foldM {S A B : Type} (body : B -> A -> M S B) (l : list A) (acc : B)
  : M S B :=
  match l with
  | [] => ret acc
  | a :: l' => acc' <- body acc a ;; foldM body l' acc'
  end.

(** ** The effects of the program

    Besides the random source and the clock, the state records what the
    program hands to its (simulated) external services: the requests given
    to the HubSpot stub, the messages posted to Slack, the events handed
    to the calendar stub, and the arguments of each call of
    [notify_on_interest] and [book_meeting]. *)

(** The [data] dictionary of an ["emails/send"] request. *)
Record api_data : Type := mkApiData {
  to : string;
  content : string;
  campaign_id : string;
  thread_id : option string;
  priority : option string
}.

(** The dictionary the HubSpot stub returns. *)
Record api_response : Type := mkApiResponse {
  id : N;
  status : string;
  timestamp : string
}.

(** A meeting slot of the calendar stub. *)
Record slot : Type := mkSlot {
  start_time : Py.datetime;
  end_time : Py.datetime;
  slot_id : string          (* key "id" *)
}.

Record World (G C : Type) : Type := mkWorld {
  rng : G;
  clock : C;
  hubspot_calls : list (string * api_data);
  slack_messages : list string;
  calendar_events : list (string * slot);
  notify_calls : list (string * string);
  book_calls : list string
}.
Arguments mkWorld {G C}.
Arguments rng {G C}.
Arguments clock {G C}.
Arguments hubspot_calls {G C}.
Arguments slack_messages {G C}.
Arguments calendar_events {G C}.
Arguments notify_calls {G C}.
Arguments book_calls {G C}.

Section Effects.
Context {G C : Type} `{RandomSource G} `{Clock C}.

Definition set_rng (g : G) (w : World G C) : World G C :=
  mkWorld g (clock w) (hubspot_calls w) (slack_messages w)
    (calendar_events w) (notify_calls w) (book_calls w).

Definition set_clock (c : C) (w : World G C) : World G C :=
  mkWorld (rng w) c (hubspot_calls w) (slack_messages w)
    (calendar_events w) (notify_calls w) (book_calls w).

(** Runs a step of the random source in the world. *)
Definition draw {A : Type} (f : G -> A * G) (w : World G C) : A * World G C :=
  let (a, g) := f (rng w) in (a, set_rng g w).

(** Reads the clock in the world. *)
Definition read {A : Type} (f : C -> A * C) (w : World G C) : A * World G C :=
  let (a, c) := f (clock w) in (a, set_clock c w).

Definition log_hubspot (endpoint : string) (data : api_data) (w : World G C)
  : World G C :=
  mkWorld (rng w) (clock w) (hubspot_calls w ++ [(endpoint, data)])%list
    (slack_messages w) (calendar_events w) (notify_calls w) (book_calls w).

Definition log_slack (message : string) (w : World G C) : World G C :=
  mkWorld (rng w) (clock w) (hubspot_calls w)
    (slack_messages w ++ [message])%list
    (calendar_events w) (notify_calls w) (book_calls w).

Definition log_calendar (email : string) (s : slot) (w : World G C)
  : World G C :=
  mkWorld (rng w) (clock w) (hubspot_calls w) (slack_messages w)
    (calendar_events w ++ [(email, s)])%list (notify_calls w) (book_calls w).

Definition log_notify (email text : string) (w : World G C) : World G C :=
  mkWorld (rng w) (clock w) (hubspot_calls w) (slack_messages w)
    (calendar_events w) (notify_calls w ++ [(email, text)])%list (book_calls w).

Definition log_book (email : string) (w : World G C) : World G C :=
  mkWorld (rng w) (clock w) (hubspot_calls w) (slack_messages w)
    (calendar_events w) (notify_calls w) (book_calls w ++ [email])%list.
End Effects.

(** ** agent/scraper/data_sources.py, continued: enrichment *)

Definition enrich_interests : list string :=
  [ "AI and automation"; "Digital transformation"; "Industry 4.0";
    "Sustainable manufacturing"; "Supply chain optimization";
    "Cloud infrastructure"; "Data analytics"; "IoT implementation" ].

Definition company_news : list string :=
  [ "recently expanded operations";
    "announced a sustainability initiative";
    "is implementing new ERP system";
    "acquired a smaller competitor";
    "launched a digital transformation project";
    "hired new technology leadership";
    "reported strong quarterly results" ].

Section Enrich.
Context {G : Type} `{RandomSource G}.

(** The body of the loop of [enrich_contact_data]: the three keys written
    into one contact dictionary. *)
Definition enrich_one (c : contact) (g : G) : contact * G :=
  let (k, g) := randint 1 3 g in
  let (ints, g) := sample "" enrich_interests (N.to_nat k) g in
  let (news, g) := choice "" company_news g in
  let (days_ago, g) := randint 1 30 g in
  (mkContact (company c) (company_size c) (industry c) (website c)
     (contact_name c) (role c) (email c) (linkedin_url c)
     (Some ints)
     (Some ("Company " ++ news))
     (Some ("Posted on LinkedIn " ++ Str.of_N days_ago ++ " days ago")),
   g).

(** [enrich_contact_data(contact_list)]: the dictionaries are updated in
    place; the result is the list after the update. *)
Fixpoint enrich_contact_data (contact_list : list contact) (g : G)
  : list contact * G :=
  match contact_list with
  | [] => ([], g)
  | c :: rest =>
      let (c', g) := enrich_one c g in
      let (rest', g) := enrich_contact_data rest g in
      (c' :: rest', g)
  end.
End Enrich.

(** ** agent/emailing/sender.py *)

(** The three email templates, character for character. *)
Definition template_initial : string :=
"
Subject: Modernizing {industry} Operations at {company}

Hi {contact_name},

I noticed {company} {recent_news}. At Matherson and Sons, we specialize in helping {industry} companies like yours optimize operations through digital transformation.

Would you be open to a 15-minute chat about how we've helped similar {industry} companies achieve 30%+ operational efficiency gains?

Best,
Alex Matherson
Matherson and Sons
".

Definition template_followup : string :=
"
Subject: Re: Modernizing {industry} Operations at {company}

Hi {contact_name},

I wanted to follow up on my previous email about helping {company} optimize operations through strategic digital transformation.

Many {industry} companies we work with were initially hesitant until they saw our case studies. I'd be happy to share how we helped a {company_size} {industry} company achieve significant ROI within 6 months.

Would you have 15 minutes this week for a quick call?

Best,
Alex Matherson
Matherson and Sons
".

Definition template_personalized : string :=
"
Subject: Your LinkedIn post on {interests[0]}

Hi {contact_name},

I noticed your recent LinkedIn activity around {interests[0]}, and it resonated with the work we're doing at Matherson and Sons.

Given your role as {role} at {company}, I thought you might be interested in how we're helping {industry} companies implement {interests[0]} solutions that deliver measurable ROI.

I have a specific idea for {company} based on your recent initiatives. Would you be open to a brief discussion?

Best,
Alex Matherson
Matherson and Sons
".
Definition TEMPLATES : list (string * string) :=
  [ ("initial", template_initial);
    ("followup", template_followup);
    ("personalized", template_personalized) ].

(** [d.get(key)] on a dictionary with string keys. *)
Fixpoint dict_get {A : Type} (d : list (string * A)) (key : string) : option A :=
  match d with
  | [] => None
  | (k, v) :: d' => if String.eqb k key then Some v else dict_get d' key
  end.

(** The keyword arguments a contact dictionary unpacks to. *)
Definition contact_kwargs (c : contact) (key : string) : option Format.value :=
  if String.eqb key "company" then Some (Format.VStr (company c))
  else if String.eqb key "company_size" then Some (Format.VStr (company_size c))
  else if String.eqb key "industry" then Some (Format.VStr (industry c))
  else if String.eqb key "website" then Some (Format.VStr (website c))
  else if String.eqb key "contact_name" then Some (Format.VStr (contact_name c))
  else if String.eqb key "role" then Some (Format.VStr (role c))
  else if String.eqb key "email" then Some (Format.VStr (email c))
  else if String.eqb key "linkedin_url" then Some (Format.VStr (linkedin_url c))
  else if String.eqb key "interests" then option_map Format.VList (interests c)
  else if String.eqb key "recent_news" then option_map Format.VStr (recent_news c)
  else if String.eqb key "last_activity" then option_map Format.VStr (last_activity c)
  else None.

(** The dictionary after [d["recent_news"] = v] *)
Definition set_recent_news (v : string) (c : contact) : contact :=
  mkContact (company c) (company_size c) (industry c) (website c)
    (contact_name c) (role c) (email c) (linkedin_url c) (interests c)
    (Some v) (last_activity c).

(** The dictionary after [d["interests"] = v] *)
Definition set_interests (v : list string) (c : contact) : contact :=
  mkContact (company c) (company_size c) (industry c) (website c)
    (contact_name c) (role c) (email c) (linkedin_url c) (Some v)
    (recent_news c) (last_activity c).

(** [contact_data_with_defaults]: the copy of the contact with the two
    optional keys defaulted. *)
Definition with_defaults (contact_data : contact) : contact :=
  let d := contact_data in
  let d :=
    match recent_news d with
    | None =>
        set_recent_news ("is in the " ++ industry contact_data ++ " sector") d
    | Some _ => d
    end in
  let d :=
    match interests d with
    | None => set_interests ["digital transformation"] d
    | Some _ => d
    end in
  d.

(** [if not template]: the key is missing or the template is empty. *)
Definition format_email_from_template
    (template_name : string) (contact_data : contact) : result string :=
  match dict_get TEMPLATES template_name with
  | None => Raise (ValueError ("Unknown template: " ++ template_name))
  | Some EmptyString => Raise (ValueError ("Unknown template: " ++ template_name))
  | Some template =>
      Format.format template (contact_kwargs (with_defaults contact_data))
  end.

Section Sender.
Context {G C : Type} `{RandomSource G} `{Clock C}.

Definition simulate_hubspot_api_call (endpoint : string) (data : api_data)
  : M (World G C) api_response :=
  fun w =>
    let w := log_hubspot endpoint data w in
    let (n, w) := draw (randint 10000 99999) w in
    let (now, w) := read datetime_now w in
    (Ok (mkApiResponse n "success" (Py.isoformat now)), w).

Definition thread_of (c : contact) : string :=
  "thread_" ++ Str.replace_char "@" "_at_" (email c).

Definition send_initial_emails (contacts : list contact)
  : M (World G C) (list N) :=
  foldM
    (fun sent_emails contact =>
       email_content <- lift (format_email_from_template "initial" contact) ;;
       response <- simulate_hubspot_api_call "emails/send"
                     (mkApiData (email contact) email_content
                        "initial_outreach" None None) ;;
       if String.eqb (status response) "success"
       then ret (sent_emails ++ [id response])%list
       else ret sent_emails)
    contacts [].

Definition send_followup_emails (contacts : list contact)
  : M (World G C) (list N) :=
  foldM
    (fun sent_emails contact =>
       email_content <- lift (format_email_from_template "followup" contact) ;;
       response <- simulate_hubspot_api_call "emails/send"
                     (mkApiData (email contact) email_content
                        "followup_outreach" (Some (thread_of contact)) None) ;;
       if String.eqb (status response) "success"
       then ret (sent_emails ++ [id response])%list
       else ret sent_emails)
    contacts [].

(** The enrichment import succeeds, so the contacts are enriched first.
    The first component of the result is the argument list after that
    in-place update. *)
Definition send_personalized_emails (contacts : list contact)
  : World G C -> list contact * (result (list N) * World G C) :=
  fun w =>
    let (contacts, w) := draw (enrich_contact_data contacts) w in
    (contacts,
     foldM
       (fun sent_emails contact =>
          email_content <-
            lift (format_email_from_template "personalized" contact) ;;
          response <- simulate_hubspot_api_call "emails/send"
                        (mkApiData (email contact) email_content
                           "personalized_outreach"
                           (Some (thread_of contact)) (Some "high")) ;;
          if String.eqb (status response) "success"
          then ret (sent_emails ++ [id response])%list
          else ret sent_emails)
       contacts [] w).
End Sender.

(** ** agent/reply_handler/processor.py *)

(** The three shapes of response dictionary that
    [simulate_fetch_responses] builds; the constructor is the ["status"]
    key. *)
Inductive response : Type :=
| Bounced (email reason : string) (timestamp : Q)
| Unsubscribed (email reason : string) (timestamp : Q)
| Replied (email content : string) (is_out_of_office is_interested : bool)
          (timestamp : Q).

Definition response_email (r : response) : string :=
  match r with
  | Bounced e _ _ | Unsubscribed e _ _ | Replied e _ _ _ _ => e
  end.

Definition response_status (r : response) : string :=
  match r with
  | Bounced _ _ _ => "bounced"
  | Unsubscribed _ _ _ => "unsubscribed"
  | Replied _ _ _ _ _ => "replied"
  end.

(** [response.get("is_out_of_office", False)] *)
Definition response_is_out_of_office (r : response) : bool :=
  match r with
  | Replied _ _ ooo _ _ => ooo
  | _ => false
  end.

(** [response.get("is_interested", False)] *)
Definition response_is_interested (r : response) : bool :=
  match r with
  | Replied _ _ _ i _ => i
  | _ => false
  end.

Definition bounce_reasons : list string :=
  ["invalid_email"; "mailbox_full"; "domain_not_found"].

Definition ooo_content : string :=
  "I'm currently out of the office until next week with limited access to email. I'll respond to your message when I return.".

Definition interested_contents : list string :=
  [ "Thanks for reaching out. This sounds interesting. I'd be happy to schedule a call next week to discuss further.";
    "Your email caught my attention. We've been looking into digital transformation recently. Let's set up a time to chat.";
    "I'm interested in learning more about your services. Can you send over some case studies from similar companies in our industry?" ].

Definition not_interested_contents : list string :=
  [ "Thanks, but we're not looking for these services at the moment.";
    "We've recently signed with another provider for this. Perhaps we can connect in the future.";
    "Please remove me from your list. This isn't relevant to our needs right now." ].

Section Processor.
Context {G C : Type} `{RandomSource G} `{Clock C}.

(** The body of the loop of [simulate_fetch_responses] for one address:
    each [continue] ends the body. *)
Definition fetch_one (email : string) (responses : list response)
    (w : World G C) : list response * World G C :=
  let (u, w) := draw random w in
  if Py.Qltb u (5 # 100) then
    let (reason, w) := draw (choice "" bounce_reasons) w in
    let (ts, w) := read time_time w in
    ((responses ++ [Bounced email reason ts])%list, w)
  else
    let (u, w) := draw random w in
    if Py.Qltb u (3 # 100) then
      let (ts, w) := read time_time w in
      ((responses ++ [Unsubscribed email "recipient_request" ts])%list, w)
    else
      let (u, w) := draw random w in
      if Py.Qltb u (1 # 10) then
        let (u, w) := draw random w in
        let is_ooo := Py.Qltb u (3 # 10) in
        (* [not is_ooo and random.random() < 0.4]: the draw is made only
           when the reply is not out-of-office *)
        let (is_interested, w) :=
          if negb is_ooo
          then let (u, w) := draw random w in (Py.Qltb u (4 # 10), w)
          else (false, w) in
        let (content, w) :=
          if is_ooo then (ooo_content, w)
          else if is_interested then draw (choice "" interested_contents) w
          else draw (choice "" not_interested_contents) w in
        let (ts, w) := read time_time w in
        ((responses
          ++ [Replied email content is_ooo (andb is_interested (negb is_ooo)) ts])%list,
         w)
      else (responses, w).

Definition simulate_fetch_responses (email_addresses : list string)
    (w : World G C) : list response * World G C :=
  fold_left (fun st email => fetch_one email (fst st) (snd st))
    email_addresses ([], w).

(** The loop of [process_responses] over the raw responses. *)
Definition process_one (processed_responses : list response) (r : response)
  : list response :=
  match r with
  | Bounced _ _ _ => (processed_responses ++ [r])%list
  | Unsubscribed _ _ _ => (processed_responses ++ [r])%list
  | Replied _ _ _ _ _ =>
      if response_is_out_of_office r then processed_responses
      else (processed_responses ++ [r])%list
  end.

Definition process_responses (email_addresses : list string)
    (w : World G C) : list response * World G C :=
  let (raw_responses, w) := simulate_fetch_responses email_addresses w in
  (fold_left process_one raw_responses [], w).
End Processor.

(** [analyze_sentiment]: the phrase counts and the score.  The score is a
    quotient of two integers of at most two digits; it is never 0.3 or
    -0.3, so comparing the float with the float literal decides as
    comparing the rationals does. *)

Definition positive_phrases : list string :=
  [ "interested"; "sounds good"; "let's talk"; "schedule"; "call"; "meet";
    "learn more"; "tell me more"; "happy to"; "case studies" ].

Definition negative_phrases : list string :=
  [ "not interested"; "no thanks"; "remove"; "unsubscribe"; "don't contact";
    "not relevant"; "not looking"; "no need" ].

(** The dictionary [analyze_sentiment] returns. *)
Record sentiment : Type := mkSentiment {
  sentiment_score : Q;
  overall_sentiment : string;
  positive_phrases_found : nat;
  negative_phrases_found : nat
}.

(** [sum(1 for phrase in phrases if phrase in text_lower)] *)
Definition count_phrases (phrases : list string) (text_lower : string) : nat :=
  List.length (filter (fun phrase => Str.str_in phrase text_lower) phrases).

Definition analyze_sentiment (text : string) : sentiment :=
  let text_lower := Str.lower text in
  let positive_count := count_phrases positive_phrases text_lower in
  let negative_count := count_phrases negative_phrases text_lower in
  let total := (positive_count + negative_count)%nat in
  let score :=
    if (total =? 0)%nat then 0
    else (Z.of_nat positive_count - Z.of_nat negative_count) # Pos.of_nat total in
  let overall :=
    if Py.Qltb (3 # 10) score then "positive"
    else if Py.Qltb score (- (3 # 10)) then "negative"
    else "neutral" in
  {| sentiment_score := score;
     overall_sentiment := overall;
     positive_phrases_found := positive_count;
     negative_phrases_found := negative_count |}.

(** ** agent/slack/notifier.py *)

Module Notifier.
Record known_contact : Type := mkKnown {
  k_email : string;
  k_contact_name : string;
  k_company : string;
  k_role : string
}.

Definition contacts : list known_contact :=
  [ mkKnown "john.doe@example.com" "John Doe" "Aussie Manufacturing Co" "CFO";
    mkKnown "jane.smith@example.com" "Jane Smith" "BuildRight Constructions"
      "Digital Transformation Lead";
    mkKnown "m.chen@example.com" "Michael Chen"
      "Melbourne Industrial Solutions" "CFO";
    mkKnown "j.taylor@example.com" "Jessica Taylor"
      "Melbourne Industrial Solutions" "Digital Transformation Lead";
    mkKnown "d.thompson@example.com" "David Thompson"
      "BuildRight Constructions" "CFO";
    mkKnown "emma.davis@example.com" "Emma Davis" "Sydney Builders Group"
      "Head of Digital Transformation";
    mkKnown "r.johnson@example.com" "Robert Johnson" "Sydney Builders Group"
      "CFO" ].

Definition find_contact_by_email (email : string) : option known_contact :=
  find (fun c => String.eqb (Str.lower (k_email c)) (Str.lower email)) contacts.

(** The double quote character of the message text. *)
Definition dq : string := String (ascii_of_nat 34) "".

Definition message_tail (response_text : string) : string :=
"
*Their response:*
```
" ++ response_text ++ "
```

*Next steps:* Schedule a call by replying to this thread with " ++ dq ++ "book call" ++ dq ++ ".
".

Definition message (email response_text : string) : string :=
  match find_contact_by_email email with
  | Some contact_info =>
"
:white_check_mark: *Interested prospect!*
*Name:* " ++ k_contact_name contact_info ++ "
*Company:* " ++ k_company contact_info ++ "
*Role:* " ++ k_role contact_info ++ "
*Email:* " ++ email ++ "
" ++ message_tail response_text
  | None =>
"
:white_check_mark: *Interested prospect!*
*Email:* " ++ email ++ "
" ++ message_tail response_text
  end.
End Notifier.

Section Slack.
Context {G C : Type}.

(** The simulated delivery: without the Slack SDK and an API token in
    the environment the message is printed, and the call succeeds. *)
Definition send_to_slack (message : string) (w : World G C)
  : bool * World G C :=
  (true, log_slack message w).

Definition notify_on_interest (email response_text : string) (w : World G C)
  : bool * World G C :=
  let w := log_notify email response_text w in
  send_to_slack (Notifier.message email response_text) w.
End Slack.

(** ** agent/calendar/booker.py *)

Section Booker.
Context {G C : Type} `{RandomSource G} `{Clock C}.

(** The inner loop of [find_available_slots]: one availability draw for
    each candidate hour of [date]. *)
Definition slots_of_day (date : Py.datetime) (hours : list Z)
    (st : list slot * World G C) : list slot * World G C :=
  fold_left
    (fun st hour =>
       let slot_time := Py.replace_time date hour in
       let (u, w) := draw random (snd st) in
       let is_available := Py.Qltb (3 # 10) u in
       if is_available
       then ((fst st
              ++ [ {| start_time := slot_time;
                      end_time := Py.datetime_add slot_time
                                    (Py.timedelta_minutes 30);
                      slot_id := "slot_" ++ Py.strftime_compact slot_time |} ])%list,
             w)
       else (fst st, w))
    hours st.

(** [find_available_slots(days_ahead, daily_slots)].  The step of the
    hour range is [8 // daily_slots]; Python raises for [daily_slots]
    zero or above eight, which no call of the program passes. *)
Definition find_available_slots_in (days_ahead daily_slots : Z)
    (w : World G C) : list slot * World G C :=
  let (now, w) := read datetime_now w in
  fold_left
    (fun st day =>
       let date := Py.datetime_add now (Py.timedelta_days day) in
       if (5 <=? Py.weekday date)%Z then st
       else slots_of_day date (Py.range 9 17 (8 / daily_slots)) st)
    (Py.range 1 (days_ahead + 1) 1) ([], w).

(** The call with the default arguments [days_ahead=7, daily_slots=3]. *)
Definition find_available_slots (w : World G C) : list slot * World G C :=
  find_available_slots_in 7 3 w.

Definition simulate_calendar_booking (email : string) (time_slot : slot)
    (w : World G C) : bool * World G C :=
  let w := log_calendar email time_slot w in
  let (u, w) := draw random w in
  (Py.Qltb u (95 # 100), w).

Definition no_slot : slot :=
  mkSlot (Py.mkDatetime 0 0 0 0 0) (Py.mkDatetime 0 0 0 0 0) "".

Definition book_meeting (email : string) (w : World G C) : bool * World G C :=
  let w := log_book email w in
  let (available_slots, w) := find_available_slots w in
  match available_slots with
  | [] => (false, w)
  | _ :: _ =>
      let (meeting_slot, w) := draw (choice no_slot available_slots) w in
      let (success, w) := simulate_calendar_booking email meeting_slot w in
      if success then (true, w) else (false, w)
  end.
End Booker.

(** ** agent/main.py *)

(** The in-memory campaign store [campaign_data]. *)
Record Store : Type := mkStore {
  contacts : list contact;
  sent_initial : list string;
  bounced : list string;
  unsubscribed : list string;
  replied : list string;
  interested : list string;
  meetings_booked : list string
}.

(** The store as the module creates it. *)
Definition campaign_data : Store := mkStore [] [] [] [] [] [] [].

Definition target_roles_of_campaign : list string :=
  ["CFO"; "Head of Digital Transformation"; "Digital Transformation Lead"].

Section Main.
Context {G C : Type} `{RandomSource G} `{Clock C}.

(** The filter of [day3_followup] and of [day4_personalized]: the contact
    is in none of the three buckets. *)
Definition is_eligible (cd : Store) (c : contact) : bool :=
  andb (negb (Str.mem (email c) (bounced cd)))
    (andb (negb (Str.mem (email c) (unsubscribed cd)))
          (negb (Str.mem (email c) (replied cd)))).

Definition eligible_contacts (cd : Store) : list contact :=
  filter (is_eligible cd) (contacts cd).

Definition day3_followup (cd : Store) : M (World G C) unit :=
  let eligible_contacts := eligible_contacts cd in
  _ <- send_followup_emails eligible_contacts ;;
  ret tt.

(** The contact dictionaries of the eligible list are those of the
    store, so the enrichment done by [send_personalized_emails] shows in
    [campaign_data["contacts"]]: [write_back] puts each enriched
    dictionary at the place of the eligible contact it came from. *)
Fixpoint write_back (keep : contact -> bool) (all updated : list contact)
  : list contact :=
  match all with
  | [] => []
  | c :: rest =>
      if keep c then
        match updated with
        | c' :: updated' => c' :: write_back keep rest updated'
        | [] => c :: write_back keep rest []
        end
      else c :: write_back keep rest updated
  end.

Definition day4_personalized (cd : Store) (w : World G C)
  : Store * (result unit * World G C) :=
  let eligible := eligible_contacts cd in
  let (enriched, rw) := send_personalized_emails eligible w in
  (mkStore (write_back (is_eligible cd) (contacts cd) enriched)
     (sent_initial cd) (bounced cd) (unsubscribed cd) (replied cd)
     (interested cd) (meetings_booked cd),
   (_ <- lift (fst rw) ;; ret tt) (snd rw)).

(** The body of the loop of [check_responses]. *)
Definition handle_response (st : Store * World G C) (r : response)
  : Store * World G C :=
  let (cd, w) := st in
  let email := response_email r in
  match r with
  | Bounced _ _ _ =>
      (mkStore (contacts cd) (sent_initial cd) (bounced cd ++ [email])%list
         (unsubscribed cd) (replied cd) (interested cd) (meetings_booked cd),
       w)
  | Unsubscribed _ _ _ =>
      (mkStore (contacts cd) (sent_initial cd) (bounced cd)
         (unsubscribed cd ++ [email])%list (replied cd) (interested cd)
         (meetings_booked cd),
       w)
  | Replied _ content _ is_interested _ =>
      let cd :=
        mkStore (contacts cd) (sent_initial cd) (bounced cd) (unsubscribed cd)
          (replied cd ++ [email])%list (interested cd) (meetings_booked cd) in
      if is_interested then
        let cd :=
          mkStore (contacts cd) (sent_initial cd) (bounced cd)
            (unsubscribed cd) (replied cd) (interested cd ++ [email])%list
            (meetings_booked cd) in
        let (_, w) := notify_on_interest email content w in
        let (booked, w) := book_meeting email w in
        if booked then
          (mkStore (contacts cd) (sent_initial cd) (bounced cd)
             (unsubscribed cd) (replied cd) (interested cd)
             (meetings_booked cd ++ [email])%list,
           w)
        else (cd, w)
      else (cd, w)
  end.

Definition check_responses (cd : Store) (w : World G C) : Store * World G C :=
  let (new_responses, w) := process_responses (sent_initial cd) w in
  fold_left handle_response new_responses (cd, w).

(** [n] successive response checks, as the hourly job of [run_campaign]
    performs them. *)
Fixpoint check_responses_n (n : nat) (cd : Store) (w : World G C)
  : Store * World G C :=
  match n with
  | O => (cd, w)
  | S n' => let (cd, w) := check_responses cd w in check_responses_n n' cd w
  end.

(** [demo_mode]: the whole campaign in one run. *)
Definition demo_mode (cd : Store) (w : World G C)
  : Store * (result unit * World G C) :=
  let companies :=
    find_companies_and_contacts "manufacturing, construction" "Australia"
      (Some target_roles_of_campaign) in
  let cd := mkStore companies (sent_initial cd) (bounced cd) (unsubscribed cd)
              (replied cd) (interested cd) (meetings_booked cd) in
  match send_initial_emails companies w with
  | (Raise e, w) => (cd, (Raise e, w))
  | (Ok _, w) =>
      let cd := mkStore (contacts cd) (map email companies) (bounced cd)
                  (unsubscribed cd) (replied cd) (interested cd)
                  (meetings_booked cd) in
      let (cd, w) := check_responses cd w in
      match day3_followup cd w with
      | (Raise e, w) => (cd, (Raise e, w))
      | (Ok _, w) =>
          let (cd, w) := check_responses cd w in
          match day4_personalized cd w with
          | (cd, (Raise e, w)) => (cd, (Raise e, w))
          | (cd, (Ok _, w)) =>
              let (cd, w) := check_responses cd w in
              (cd, (Ok tt, w))
          end
      end
  end.
End Main.

(** * Vocabulary of the properties *)

Section Vocabulary.
Context {G C : Type} `{RandomSource G} `{Clock C}.

(** The keys of [TEMPLATES]. *)
Definition registered : list string := ["initial"; "followup"; "personalized"].

(** What a step leaves untouched, as a relation between two worlds. *)
Definition same_logs (w w' : World G C) : Prop :=
  hubspot_calls w' = hubspot_calls w
  /\ slack_messages w' = slack_messages w
  /\ calendar_events w' = calendar_events w
  /\ notify_calls w' = notify_calls w
  /\ book_calls w' = book_calls w.

(** The response with its timestamp blanked. *)
Definition untimed (r : response) : response :=
  match r with
  | Bounced e reason _ => Bounced e reason 0
  | Unsubscribed e reason _ => Unsubscribed e reason 0
  | Replied e content ooo i _ => Replied e content ooo i 0
  end.

(** The number of responses of [rs] that name the address [e]. *)
Definition count_for (e : string) (rs : list response) : nat :=
  List.length (filter (fun r => String.eqb (response_email r) e) rs).

(** The responses that [process_responses] passes on: all but the
    out-of-office replies. *)
Definition kept (r : response) : bool := negb (response_is_out_of_office r).

(** A slot as [find_available_slots] builds it for a day and an hour. *)
Definition slot_at (date : Py.datetime) (hour : Z) : slot :=
  {| start_time := Py.replace_time date hour;
     end_time := Py.datetime_add (Py.replace_time date hour)
                   (Py.timedelta_minutes 30);
     slot_id := "slot_" ++ Py.strftime_compact (Py.replace_time date hour) |}.

(** What the claim asks of a slot. *)
Definition business_slot (s : slot) : Prop :=
  (0 <= Py.weekday (start_time s) <= 4)%Z
  /\ (9 <= Py.hour (start_time s) <= 16)%Z
  /\ Py.minute (start_time s) = 0%Z
  /\ Py.second (start_time s) = 0%Z
  /\ Py.microsecond (start_time s) = 0%Z
  /\ end_time s = Py.datetime_add (start_time s) (Py.timedelta_minutes 30)
  /\ Py.ordinal (end_time s) = Py.ordinal (start_time s)
  /\ Py.hour (end_time s) = Py.hour (start_time s)
  /\ Py.minute (end_time s) = 30%Z
  /\ Py.second (end_time s) = 0%Z
  /\ Py.microsecond (end_time s) = 0%Z.

(** The recipients of a list of requests to the HubSpot stub. *)
Definition recipients (calls : list (string * api_data)) : list string :=
  map (fun call => to (snd call)) calls.

(** The common shape of the three sending loops. *)
Definition send_body (template_name : string)
    (data : contact -> string -> api_data)
    (sent_emails : list N) (c : contact) : M (World G C) (list N) :=
  email_content <- lift (format_email_from_template template_name c) ;;
  response <- simulate_hubspot_api_call "emails/send" (data c email_content) ;;
  if String.eqb (status response) "success"
  then ret (sent_emails ++ [id response])%list
  else ret sent_emails.

Definition initial_data (c : contact) (text : string) : api_data :=
  mkApiData (email c) text "initial_outreach" None None.

Definition followup_data (c : contact) (text : string) : api_data :=
  mkApiData (email c) text "followup_outreach" (Some (thread_of c)) None.

Definition personalized_data (c : contact) (text : string) : api_data :=
  mkApiData (email c) text "personalized_outreach" (Some (thread_of c))
    (Some "high").

Definition is_bounced (r : response) : bool :=
  match r with Bounced _ _ _ => true | _ => false end.

Definition is_unsubscribed (r : response) : bool :=
  match r with Unsubscribed _ _ _ => true | _ => false end.

Definition is_replied (r : response) : bool :=
  match r with Replied _ _ _ _ _ => true | _ => false end.

(** [response["content"]] of a reply *)
Definition response_content (r : response) : string :=
  match r with Replied _ c _ _ _ => c | _ => "" end.

(** The addresses of the responses of [rs] that satisfy [p]. *)
Definition addresses (p : response -> bool) (rs : list response) : list string :=
  map response_email (filter p rs).

(** The notifier calls that the interested replies of [rs] cause. *)
Definition notifications (rs : list response) : list (string * string) :=
  map (fun r => (response_email r, response_content r))
      (filter response_is_interested rs).

(** What handling the responses [rs] does to the store and to the logs:
    each bucket grows by the addresses of its kind, in order, and the
    notifier and the booker are called once for each interested reply. *)
Definition handled (rs : list response) (st st' : Store * World G C) : Prop :=
  contacts (fst st') = contacts (fst st)
  /\ sent_initial (fst st') = sent_initial (fst st)
  /\ bounced (fst st') = (bounced (fst st) ++ addresses is_bounced rs)%list
  /\ unsubscribed (fst st')
     = (unsubscribed (fst st) ++ addresses is_unsubscribed rs)%list
  /\ replied (fst st') = (replied (fst st) ++ addresses is_replied rs)%list
  /\ interested (fst st')
     = (interested (fst st) ++ addresses response_is_interested rs)%list
  /\ (exists booked,
         meetings_booked (fst st') = (meetings_booked (fst st) ++ booked)%list
         /\ incl booked (addresses response_is_interested rs))
  /\ notify_calls (snd st') = (notify_calls (snd st) ++ notifications rs)%list
  /\ book_calls (snd st')
     = (book_calls (snd st) ++ addresses response_is_interested rs)%list
  /\ hubspot_calls (snd st') = hubspot_calls (snd st).

(** The responses a check handles: those of the pass that are not
    out-of-office. *)
Definition responses_handled (cd : Store) (w : World G C) : list response :=
  fst (process_responses (sent_initial cd) w).

Definition contained (cd : Store) : Prop :=
  incl (meetings_booked cd) (interested cd)
  /\ incl (interested cd) (replied cd).

(** [l1] is [l2] with some of its elements left out. *)
Inductive subseq {A : Type} : list A -> list A -> Prop :=
| subseq_nil : subseq [] []
| subseq_skip (a : A) (l1 l2 : list A) : subseq l1 l2 -> subseq l1 (a :: l2)
| subseq_take (a : A) (l1 l2 : list A) :
    subseq l1 l2 -> subseq (a :: l1) (a :: l2).

(** [l'] is [l] with elements appended. *)
Definition extends {A : Type} (l l' : list A) : Prop :=
  exists added, l' = (l ++ added)%list.

(** The fields of a response fit each other: a bounce reason is one of
    the three the code lists, an out-of-office reply carries the
    out-of-office text and is not interested, and any other reply carries a
    text of the list that its interest flag selects. *)
Definition well_formed (r : response) : Prop :=
  match r with
  | Bounced _ reason _ => In reason bounce_reasons
  | Unsubscribed _ reason _ => reason = "recipient_request"
  | Replied _ content ooo i _ =>
      (ooo = true -> content = ooo_content /\ i = false)
      /\ (ooo = false -> i = true -> In content interested_contents)
      /\ (ooo = false -> i = false -> In content not_interested_contents)
  end.

(** The text of a template for a contact, when it renders. *)
Definition rendered (template_name : string) (c : contact) : string :=
  match format_email_from_template template_name c with
  | Ok text => text
  | Raise _ => ""
  end.

(** The ids that [simulate_hubspot_api_call] draws. *)
Definition five_digits (n : N) : Prop := (10000 <= n <= 99999)%N.

(** A time of day as a [datetime] holds it. *)
Definition valid_time (dt : Py.datetime) : Prop :=
  (0 <= Py.hour dt < 24)%Z
  /\ (0 <= Py.minute dt < 60)%Z
  /\ (0 <= Py.second dt < 60)%Z
  /\ (0 <= Py.microsecond dt < 1000000)%Z.

(** [c'] is [c] after [enrich_contact_data]: the eight keys of the lead
    source are kept, the three optional keys are set. *)
Definition enriched (c c' : contact) : Prop :=
  company c' = company c
  /\ company_size c' = company_size c
  /\ industry c' = industry c
  /\ website c' = website c
  /\ contact_name c' = contact_name c
  /\ role c' = role c
  /\ email c' = email c
  /\ linkedin_url c' = linkedin_url c
  /\ (exists ints, interests c' = Some ints)
  /\ (exists news,
         In news company_news /\ recent_news c' = Some ("Company " ++ news))
  /\ (exists days_ago,
         (1 <= days_ago <= 30)%N
         /\ last_activity c'
            = Some ("Posted on LinkedIn " ++ Str.of_N days_ago ++ " days ago")).

(** The store [cd'] is the store [cd] at a later time of the campaign:
    same contacts and sent list, every bucket extended. *)
Definition later (cd cd' : Store) : Prop :=
  contacts cd' = contacts cd
  /\ sent_initial cd' = sent_initial cd
  /\ extends (bounced cd) (bounced cd')
  /\ extends (unsubscribed cd) (unsubscribed cd')
  /\ extends (replied cd) (replied cd')
  /\ extends (interested cd) (interested cd')
  /\ extends (meetings_booked cd) (meetings_booked cd').

(** The addresses of the campaign: the eight contacts of the two data
    sets all have one of the three roles that [demo_mode] asks for. *)
Definition campaign_addresses : list string :=
  [ "john.doe@example.com"; "sarah.wilson@example.com"; "m.chen@example.com";
    "j.taylor@example.com"; "d.thompson@example.com"; "jane.smith@example.com";
    "r.johnson@example.com"; "emma.davis@example.com" ].

(** What every step of the run keeps. *)
Definition books_in_order (cd : Store) : Prop :=
  map email (contacts cd) = campaign_addresses
  /\ sent_initial cd = campaign_addresses
  /\ contained cd.

End Vocabulary.

(** ** Data for worked instances *)

Module Demo.

(** John Doe of Aussie Manufacturing Co, as the lead source returns him. *)
Definition john : contact :=
  contact_info
    (Raw.mkCompany "Aussie Manufacturing Co" "Manufacturing"
       "www.aussiemfg.com.au" "50-200 employees" [])
    (Raw.mkPerson "John Doe" "CFO" "john.doe@example.com"
       "linkedin.com/in/johndoe").

Definition john_email : string := "john.doe@example.com".

(** A store with John as the only contact, after the initial send. *)
Definition store_john : Store :=
  mkStore [john] [john_email] [] [] [] [] [].

(** The same store once John's address has bounced. *)
Definition store_john_bounced : Store :=
  mkStore [john] [john_email] [john_email] [] [] [] [].

(** Monday 2024-01-01, ten o'clock. *)
Definition monday : Py.datetime := Py.mkDatetime 738886 10 0 0 0.

Definition clock_at (t : Q) : FixedClock := mkFixedClock t monday.

Definition world_of (draws : nat -> Q) (t : Q) : World Tape FixedClock :=
  mkWorld (mkTape draws 0) (clock_at t) [] [] [] [] [].

(** Every draw is 0.01: each address bounces. *)
Definition draws_bounce (i : nat) : Q := 1 # 100.

(** No bounce, no unsubscribe, a reply that is an out-of-office notice. *)
Definition draws_out_of_office (i : nat) : Q :=
  nth i [1 # 2; 1 # 2; 5 # 100; 1 # 10] (1 # 2).

(** No bounce, no unsubscribe, a reply that is not out-of-office and is
    interested; all slots free and the booking succeeds.  One check of one
    address takes 28 draws, after which the pattern starts again. *)
Definition draws_interested (i : nat) : Q :=
  nth (i mod 28) [1 # 2; 1 # 2; 5 # 100; 1 # 2; 1 # 10] (1 # 2).

End Demo.

(** * Properties *)

(** ** Strings *)

Module StrFacts.

Lemma startswith_spec (p s : string) :
Str.startswith p s = true <-> exists post, s = p ++ post.
Proof.
revert s; induction p as [|a p IH]; intros s; simpl.
- split; [intros _; now exists s | reflexivity].
- destruct s as [|b s].
  + split; [discriminate | intros [post H]; discriminate].
  + destruct (Ascii.eqb_spec a b) as [->|Hne].
    * rewrite IH. split; intros [post H]; exists post.
      -- now rewrite H.
      -- now inversion H.
    * split; [discriminate|]. intros [post H]. simpl in H. congruence.
Qed.

Lemma str_in_spec (sub s : string) :
Str.str_in sub s = true <-> exists pre post, s = pre ++ sub ++ post.
Proof.
induction s as [|c s IH]; simpl.
- destruct (Str.startswith sub "") eqn:E.
  + split; [intros _|reflexivity].
    apply startswith_spec in E. destruct E as [post E].
    now exists "", post.
  + split; [discriminate|]. intros (pre & post & H).
    destruct pre; simpl in H.
    * assert (Str.startswith sub "" = true) by (apply startswith_spec; now exists post).
      congruence.
    * discriminate.
- destruct (Str.startswith sub (String c s)) eqn:E.
  + split; [intros _|reflexivity].
    apply startswith_spec in E. destruct E as [post E].
    now exists "", post.
  + rewrite IH. split.
    * intros (pre & post & H). exists (String c pre), post. simpl. now rewrite H.
    * intros (pre & post & H). destruct pre as [|c' pre]; simpl in H.
      -- assert (Str.startswith sub (String c s) = true)
           by (apply startswith_spec; now exists post).
         congruence.
      -- inversion H. now exists pre, post.
Qed.

Lemma mem_In (x : string) (l : list string) : Str.mem x l = true <-> In x l.
Proof.
unfold Str.mem. rewrite existsb_exists. split.
- intros (y & Hy & E). apply String.eqb_eq in E. now subst.
- intros H. exists x. split; [assumption | apply String.eqb_refl].
Qed.

Lemma mem_false (x : string) (l : list string) : Str.mem x l = false <-> ~ In x l.
Proof.
rewrite <- mem_In. destruct (Str.mem x l); split; congruence.
Qed.

End StrFacts.

(** ** Lead source *)

Section LeadSource.

Lemma fold_append_filter {A B : Type} (keep : A -> bool) (f : A -> B)
    (l : list A) (init : list B) :
  fold_left (fun acc a => if keep a then (acc ++ [f a])%list else acc) l init
  = (init ++ map f (filter keep l))%list.
Proof.
  revert init; induction l as [|a l IH]; intros init; simpl.
  - now rewrite app_nil_r.
  - rewrite IH. destruct (keep a); simpl.
    + now rewrite <- app_assoc.
    + reflexivity.
Qed.

Lemma fold_append_flat_map {A B : Type} (f : A -> list B)
    (l : list A) (init : list B) :
  fold_left (fun acc a => (acc ++ f a)%list) l init
  = (init ++ flat_map f l)%list.
Proof.
  revert init; induction l as [|a l IH]; intros init; simpl.
  - now rewrite app_nil_r.
  - rewrite IH. now rewrite <- app_assoc.
Qed.

(** The result as one list comprehension. *)
Lemma find_companies_and_contacts_eq (kw region : string)
    (roles : option (list string)) :
  find_companies_and_contacts kw region roles
  = flat_map
      (fun c => map (contact_info c)
                  (filter (role_passes roles) (Raw.contacts c)))
      (all_companies kw).
Proof.
  unfold find_companies_and_contacts.
  rewrite (fold_append_flat_map
             (fun c => fold_left
                         (fun filtered p =>
                            if role_passes roles p
                            then (filtered ++ [contact_info c p])%list
                            else filtered)
                         (Raw.contacts c) [])).
  simpl. apply flat_map_ext. intros c.
  now rewrite fold_append_filter.
Qed.

(** The companies selected by the keywords. *)
Lemma all_companies_In (kw : string) (c : Raw.company) :
  In c (all_companies kw)
  <-> (In c manufacturing_companies
       /\ Str.str_in "manufacturing" (Str.lower kw) = true)
      \/ (In c construction_companies
          /\ Str.str_in "construction" (Str.lower kw) = true).
Proof.
  unfold all_companies.
  destruct (Str.str_in "manufacturing" (Str.lower kw));
    destruct (Str.str_in "construction" (Str.lower kw));
    rewrite ?app_nil_l, ?in_app_iff; simpl (In c []);
    intuition congruence.
Qed.

Lemma role_passes_Some (roles : list string) (p : Raw.person) :
  role_passes (Some roles) p = true
  <-> exists r pre post,
        In r roles /\ Str.lower (Raw.role p) = pre ++ Str.lower r ++ post.
Proof.
  simpl. rewrite existsb_exists. split.
  - intros (r & Hr & E). apply StrFacts.str_in_spec in E.
    destruct E as (pre & post & E). now exists r, pre, post.
  - intros (r & pre & post & Hr & E). exists r. split; [assumption|].
    apply StrFacts.str_in_spec. now exists pre, post.
Qed.

End LeadSource.

(** C6, as the code has it.  With the role filter absent ([None], the
    default) every contact of the selected companies is returned.  With a
    role list, a contact is returned exactly when the lower-cased form of
    some requested role occurs inside its lower-cased role; an empty role
    list therefore returns no contact at all. *)
Theorem C6_role_filter (industry_keywords region : string) :
  find_companies_and_contacts industry_keywords region None
  = flat_map (fun c => map (contact_info c) (Raw.contacts c))
      (all_companies industry_keywords)
  /\ (forall (roles : list string) (ci : contact),
         In ci (find_companies_and_contacts industry_keywords region (Some roles))
         <-> exists c p,
               In c (all_companies industry_keywords)
               /\ In p (Raw.contacts c)
               /\ ci = contact_info c p
               /\ exists r pre post,
                    In r roles
                    /\ Str.lower (Raw.role p) = pre ++ Str.lower r ++ post)
  /\ find_companies_and_contacts industry_keywords region (Some []) = [].
Proof.
  split; [|split].
  - rewrite find_companies_and_contacts_eq. apply flat_map_ext. intros c.
    f_equal. induction (Raw.contacts c) as [|p l IH]; simpl; [reflexivity|].
    now rewrite IH.
  - intros roles ci. rewrite find_companies_and_contacts_eq, in_flat_map.
    split.
    + intros (c & Hc & Hin). apply in_map_iff in Hin.
      destruct Hin as (p & Hci & Hp). apply filter_In in Hp.
      destruct Hp as [Hp Hpass]. exists c, p.
      repeat split; try assumption; [now symmetry|].
      now apply role_passes_Some.
    + intros (c & p & Hc & Hp & Hci & Hrole). exists c. split; [assumption|].
      apply in_map_iff. exists p. split; [now symmetry|].
      apply filter_In. split; [assumption|]. now apply role_passes_Some.
  - rewrite find_companies_and_contacts_eq.
    induction (all_companies industry_keywords) as [|c l IH]; simpl;
      [reflexivity|].
    rewrite IH, app_nil_r.
    induction (Raw.contacts c) as [|p ps IHp]; simpl; [reflexivity|assumption].
Qed.

(** C6, as stated, fails: with an empty role list and the keyword
    ["manufacturing"] the lookup returns nothing, although the two
    manufacturing companies have four contacts. *)
Lemma C6_empty_role_list_returns_nothing :
  find_companies_and_contacts "manufacturing" "Australia" (Some []) = []
  /\ List.length
       (flat_map (fun c => map (contact_info c) (Raw.contacts c))
          (all_companies "manufacturing")) = 4%nat
  /\ find_companies_and_contacts "manufacturing" "Australia" (Some [])
     <> flat_map (fun c => map (contact_info c) (Raw.contacts c))
          (all_companies "manufacturing").
Proof.
  repeat split; try reflexivity. vm_compute. discriminate.
Qed.

(** ** Template renderer *)

Section Renderer.

Lemma dict_get_TEMPLATES (template_name : string) :
  (template_name = "initial"
   /\ dict_get TEMPLATES template_name = Some template_initial)
  \/ (template_name = "followup"
      /\ dict_get TEMPLATES template_name = Some template_followup)
  \/ (template_name = "personalized"
      /\ dict_get TEMPLATES template_name = Some template_personalized)
  \/ (~ In template_name registered
      /\ dict_get TEMPLATES template_name = None).
Proof.
  unfold TEMPLATES, dict_get, registered.
  destruct (String.eqb_spec "initial" template_name) as [<-|H1]; [now left|].
  destruct (String.eqb_spec "followup" template_name) as [<-|H2];
    [now right; left|].
  destruct (String.eqb_spec "personalized" template_name) as [<-|H3];
    [now right; right; left|].
  right; right; right. split; [|reflexivity].
  simpl. intuition congruence.
Qed.

Lemma registered_cases (template_name : string) :
  In template_name registered
  -> template_name = "initial" \/ template_name = "followup"
     \/ template_name = "personalized".
Proof. unfold registered; simpl; intuition. Qed.

(** A registered template renders unless the contact carries an empty
    interest list. *)
Lemma format_registered_ok (template_name : string) (c : contact) :
  In template_name registered
  -> interests c <> Some []
  -> exists text, format_email_from_template template_name c = Ok text.
Proof.
  intros Hreg Hint. apply registered_cases in Hreg.
  destruct c as [co cs ind web cn ro em li ints news la]; simpl in Hint.
  destruct ints as [[|i ints]|]; [congruence| |];
    destruct news as [news|];
    destruct Hreg as [->|[->| ->]]; vm_compute; eexists; reflexivity.
Qed.

(** What a registered template can raise is never the unknown-template
    error. *)
Lemma format_registered_not_unknown (template_name : string) (c : contact) :
  In template_name registered
  -> format_email_from_template template_name c
     <> Raise (ValueError ("Unknown template: " ++ template_name)).
Proof.
  intros Hreg. apply registered_cases in Hreg.
  destruct c as [co cs ind web cn ro em li ints news la].
  destruct ints as [[|i ints]|];
    destruct news as [news|];
    destruct Hreg as [->|[->| ->]]; vm_compute; discriminate.
Qed.

End Renderer.

(** C7.  [format_email_from_template] raises the unknown-template error
    exactly when the template name is not one of initial, followup and
    personalized.  For a registered template an absent [recent_news] is
    replaced by the phrase "is in the <industry> sector" and an absent
    [interests] by the one-element list ["digital transformation"], and the
    rendering succeeds: with [interests] absent it returns a text whatever
    the other optional keys are, and the personalized text then opens with
    the default interest. *)
Theorem C7_unknown_template_and_defaults (template_name : string) (c : contact) :
  (format_email_from_template template_name c
   = Raise (ValueError ("Unknown template: " ++ template_name))
   <-> ~ In template_name registered)
  /\ (In template_name registered
      -> recent_news c = None
      -> format_email_from_template template_name c
         = format_email_from_template template_name
             (set_recent_news ("is in the " ++ industry c ++ " sector") c))
  /\ (In template_name registered
      -> interests c = None
      -> format_email_from_template template_name c
         = format_email_from_template template_name
             (set_interests ["digital transformation"] c)
         /\ exists text, format_email_from_template template_name c = Ok text)
  /\ (interests c = None
      -> exists post,
           format_email_from_template "personalized" c
           = Ok (String "010" "Subject: Your LinkedIn post on digital transformation"
                 ++ post)).
Proof.
  split; [|split; [|split]].
  - split.
    + intros Hraise Hreg.
      now apply (format_registered_not_unknown template_name c).
    + intros Hnot. unfold format_email_from_template.
      destruct (dict_get_TEMPLATES template_name)
        as [[E _]|[[E _]|[[E _]|[_ E]]]];
        [exfalso; apply Hnot; rewrite E; unfold registered; simpl; tauto ..|].
      now rewrite E.
  - intros Hreg Hnews. apply registered_cases in Hreg.
    destruct c as [co cs ind web cn ro em li ints news la]; simpl in Hnews.
    subst news.
    destruct Hreg as [->|[->| ->]]; destruct ints; vm_compute; reflexivity.
  - intros Hreg Hint. split.
    + apply registered_cases in Hreg.
      destruct c as [co cs ind web cn ro em li ints news la]; simpl in Hint.
      subst ints.
      destruct Hreg as [->|[->| ->]]; destruct news; vm_compute; reflexivity.
    + apply format_registered_ok; [assumption|]. rewrite Hint. discriminate.
  - intros Hint.
    destruct c as [co cs ind web cn ro em li ints news la]; simpl in Hint.
    subst ints.
    destruct news; vm_compute; eexists; reflexivity.
Qed.

(** ** The world under the steps of the program *)

Section Frames.
Context {G C : Type} `{RandomSource G} `{Clock C}.

Lemma same_logs_refl (w : World G C) : same_logs w w.
Proof. repeat split. Qed.

Lemma same_logs_trans (w1 w2 w3 : World G C) :
  same_logs w1 w2 -> same_logs w2 w3 -> same_logs w1 w3.
Proof.
  unfold same_logs. intros (a1 & a2 & a3 & a4 & a5) (b1 & b2 & b3 & b4 & b5).
  repeat split; congruence.
Qed.

Lemma draw_eq {A : Type} (f : G -> A * G) (w : World G C) :
  draw f w = (fst (f (rng w)), set_rng (snd (f (rng w))) w).
Proof. unfold draw. now destruct (f (rng w)). Qed.

Lemma read_eq {A : Type} (f : C -> A * C) (w : World G C) :
  read f w = (fst (f (clock w)), set_clock (snd (f (clock w))) w).
Proof. unfold read. now destruct (f (clock w)). Qed.

Lemma draw_same_logs {A : Type} (f : G -> A * G) (w : World G C) :
  same_logs w (snd (draw f w)).
Proof. rewrite draw_eq. repeat split. Qed.

Lemma read_same_logs {A : Type} (f : C -> A * C) (w : World G C) :
  same_logs w (snd (read f w)).
Proof. rewrite read_eq. repeat split. Qed.

Lemma draw_clock {A : Type} (f : G -> A * G) (w : World G C) :
  clock (snd (draw f w)) = clock w.
Proof. now rewrite draw_eq. Qed.

Lemma read_rng {A : Type} (f : C -> A * C) (w : World G C) :
  rng (snd (read f w)) = rng w.
Proof. now rewrite read_eq. Qed.

End Frames.

(** Unfolds the steps on the world and reduces the pairs they bind. *)
Ltac step_world := repeat (rewrite ?draw_eq, ?read_eq; cbn [fst snd]).

Ltac case_ifs :=
  repeat match goal with
    | |- context [if ?b then _ else _] =>
        let E := fresh "E" in destruct b eqn:E; cbn [fst snd]
    end.

(** ** Response classification *)

Section Classification.
Context {G C : Type} `{RandomSource G} `{Clock C}.

(** The body of the fetch loop appends what it would yield on an empty
    list. *)
Lemma fetch_one_app (e : string) (rs : list response) (w : World G C) :
  fetch_one e rs w
  = ((rs ++ fst (fetch_one e [] w))%list, snd (fetch_one e [] w)).
Proof.
  unfold fetch_one.
  repeat rewrite ?draw_eq, ?read_eq; cbn [fst snd].
  repeat match goal with
    | |- context [if ?b then _ else _] => destruct b; cbn [fst snd]
    end;
    repeat rewrite ?draw_eq, ?read_eq; cbn [fst snd];
    rewrite ?app_nil_r; reflexivity.
Qed.
(** One pass of the body yields nothing or one response, for the address
    it was given; an out-of-office reply is never marked interested. *)
Lemma fetch_one_shape (e : string) (w : World G C) :
  fst (fetch_one e [] w) = []
  \/ exists r, fst (fetch_one e [] w) = [r]
       /\ response_email r = e
       /\ (response_is_out_of_office r = true
           -> response_is_interested r = false).
Proof.
  unfold fetch_one. step_world. case_ifs; step_world;
    try (now left); right; eexists; (split; [reflexivity|]);
    (split; [reflexivity|]); simpl; congruence.
Qed.

Lemma fetch_one_same_logs (e : string) (rs : list response) (w : World G C) :
  same_logs w (snd (fetch_one e rs w)).
Proof.
  unfold fetch_one. step_world. case_ifs; step_world; repeat split.
Qed.

(** The outcome depends on the world through the random source only, the
    timestamp apart. *)
Lemma fetch_one_rng (e : string) (w1 w2 : World G C) :
  rng w1 = rng w2
  -> map untimed (fst (fetch_one e [] w1)) = map untimed (fst (fetch_one e [] w2))
     /\ rng (snd (fetch_one e [] w1)) = rng (snd (fetch_one e [] w2)).
Proof.
  intros Hg. unfold fetch_one. step_world.
  cbn [rng set_rng set_clock]. rewrite Hg.
  case_ifs; step_world; cbn [rng set_rng set_clock map untimed app];
    rewrite ?Hg; split; reflexivity.
Qed.

(** The fold of [simulate_fetch_responses], one address at a time. *)
Lemma fetch_fold_app (es : list string) (acc : list response) (w : World G C) :
  fold_left (fun st email => fetch_one email (fst st) (snd st)) es (acc, w)
  = ((acc ++ fst (simulate_fetch_responses es w))%list,
     snd (simulate_fetch_responses es w)).
Proof.
  unfold simulate_fetch_responses.
  revert acc w; induction es as [|e es IH]; intros acc w; simpl.
  - now rewrite app_nil_r.
  - rewrite (fetch_one_app e acc w).
    destruct (fetch_one e [] w) as [r1 w1]. cbn [fst snd].
    rewrite IH. rewrite (IH r1 w1).
    cbn [fst snd]. now rewrite app_assoc.
Qed.

Lemma simulate_fetch_responses_cons (e : string) (es : list string)
    (w : World G C) :
  simulate_fetch_responses (e :: es) w
  = ((fst (fetch_one e [] w)
      ++ fst (simulate_fetch_responses es (snd (fetch_one e [] w))))%list,
     snd (simulate_fetch_responses es (snd (fetch_one e [] w)))).
Proof.
  unfold simulate_fetch_responses at 1. simpl.
  rewrite (surjective_pairing (fetch_one e [] w)) at 1.
  now rewrite fetch_fold_app.
Qed.

Lemma simulate_fetch_responses_same_logs (es : list string) (w : World G C) :
  same_logs w (snd (simulate_fetch_responses es w)).
Proof.
  revert w; induction es as [|e es IH]; intros w.
  - apply same_logs_refl.
  - rewrite simulate_fetch_responses_cons. cbn [snd].
    eapply same_logs_trans; [apply (fetch_one_same_logs e [] w)|apply IH].
Qed.

Lemma count_for_app (e : string) (rs1 rs2 : list response) :
  count_for e (rs1 ++ rs2) = (count_for e rs1 + count_for e rs2)%nat.
Proof. unfold count_for. now rewrite filter_app, length_app. Qed.

Lemma fetch_one_count (e a : string) (w : World G C) :
  (count_for a (fst (fetch_one e [] w))
   <= if string_dec e a then 1 else 0)%nat.
Proof.
  destruct (fetch_one_shape e w) as [->|(r & -> & Hr & _)]; simpl.
  - unfold count_for; simpl. lia.
  - unfold count_for; simpl. rewrite Hr.
    destruct (string_dec e a) as [->|Hne].
    + rewrite String.eqb_refl. simpl. lia.
    + apply String.eqb_neq in Hne. rewrite Hne. simpl. lia.
Qed.

(** No address gets more responses in a pass than it has entries in the
    list. *)
Lemma simulate_fetch_responses_count (es : list string) (a : string)
    (w : World G C) :
  (count_for a (fst (simulate_fetch_responses es w))
   <= count_occ string_dec es a)%nat.
Proof.
  revert w; induction es as [|e es IH]; intros w.
  - unfold simulate_fetch_responses, count_for; simpl. lia.
  - rewrite simulate_fetch_responses_cons. cbn [fst].
    rewrite count_for_app. simpl count_occ.
    pose proof (fetch_one_count e a w) as H1.
    pose proof (IH (snd (fetch_one e [] w))) as H2.
    destruct (string_dec e a); lia.
Qed.

(** C2.  One pass of the classification body appends at most one response,
    for the address it was given, and the three checks are tried in the
    order bounce, unsubscribe, reply: when the bounce draw succeeds the
    only outcome is a bounce, and when it fails and the unsubscribe draw
    succeeds the only outcome is an unsubscribe, so a reply is recorded
    only after both draws failed.  Over a whole list no address gets more
    responses than it has entries. *)
Theorem C2_one_outcome_in_precedence_order
    (email : string) (responses : list response) (w : World G C) :
  let u_bounce := fst (random (rng w)) in
  let u_unsubscribe := fst (random (snd (random (rng w)))) in
  (exists new,
      fst (fetch_one email responses w) = (responses ++ new)%list
      /\ (List.length new <= 1)%nat
      /\ (forall r, In r new -> response_email r = email)
      /\ (Py.Qltb u_bounce (5 # 100) = true
          -> exists reason ts, new = [Bounced email reason ts])
      /\ (Py.Qltb u_bounce (5 # 100) = false
          -> Py.Qltb u_unsubscribe (3 # 100) = true
          -> exists ts, new = [Unsubscribed email "recipient_request" ts])
      /\ (forall r, In r new -> response_status r = "replied"
          -> Py.Qltb u_bounce (5 # 100) = false
             /\ Py.Qltb u_unsubscribe (3 # 100) = false))
  /\ (forall (email_addresses : list string) (a : string),
         (count_for a (fst (simulate_fetch_responses email_addresses w))
          <= count_occ string_dec email_addresses a)%nat).
Proof.
  intros u_bounce u_unsubscribe. split.
  - exists (fst (fetch_one email [] w)).
    split; [now rewrite fetch_one_app|].
    split.
    { destruct (fetch_one_shape email w) as [->|(r & -> & _)]; simpl; lia. }
    split.
    { destruct (fetch_one_shape email w) as [->|(r & -> & Hr & _)];
        simpl; intros r' Hin; [contradiction|].
      destruct Hin as [<-|[]]. exact Hr. }
    subst u_bounce u_unsubscribe.
    unfold fetch_one. step_world. cbn [rng set_rng set_clock].
    destruct (Py.Qltb (fst (random (rng w))) (5 # 100)) eqn:Eb; step_world.
    { split; [intros _; do 2 eexists; reflexivity|].
      split; [discriminate|].
      intros r [<-|[]]. discriminate. }
    cbn [rng set_rng set_clock].
    destruct (Py.Qltb (fst (random (snd (random (rng w))))) (3 # 100)) eqn:Eu;
      step_world.
    { split; [discriminate|].
      split; [intros _ _; eexists; reflexivity|].
      intros r [<-|[]]. discriminate. }
    split; [discriminate|]. split; [discriminate|].
    intros r _ _. now split.
  - intros email_addresses a. apply simulate_fetch_responses_count.
Qed.

(** *** Processing *)

Lemma process_one_fold (raw acc : list response) :
  fold_left process_one raw acc = (acc ++ filter kept raw)%list.
Proof.
  revert acc; induction raw as [|r raw IH]; intros acc; simpl.
  - now rewrite app_nil_r.
  - rewrite IH. destruct r as [e rn t|e rn t|e c o i t]; unfold kept; simpl;
      try now rewrite <- app_assoc.
    destruct o; simpl; [reflexivity|now rewrite <- app_assoc].
Qed.

Lemma process_responses_eq (es : list string) (w : World G C) :
  process_responses es w
  = (filter kept (fst (simulate_fetch_responses es w)),
     snd (simulate_fetch_responses es w)).
Proof.
  unfold process_responses.
  destruct (simulate_fetch_responses es w) as [raw w']. cbn [fst snd].
  now rewrite process_one_fold.
Qed.

Lemma untimed_kept (l : list response) :
  map untimed (filter kept l) = filter kept (map untimed l).
Proof.
  induction l as [|r l IH]; simpl; [reflexivity|].
  destruct r as [e rn t|e rn t|e c o i t]; unfold kept in *; simpl;
    try (now rewrite IH).
  destruct o; simpl; now rewrite IH.
Qed.

Lemma simulate_fetch_responses_rng (es : list string) (w1 w2 : World G C) :
  rng w1 = rng w2
  -> map untimed (fst (simulate_fetch_responses es w1))
     = map untimed (fst (simulate_fetch_responses es w2))
     /\ rng (snd (simulate_fetch_responses es w1))
        = rng (snd (simulate_fetch_responses es w2)).
Proof.
  revert w1 w2; induction es as [|e es IH]; intros w1 w2 Hg.
  - split; [reflexivity|exact Hg].
  - rewrite !simulate_fetch_responses_cons. cbn [fst snd].
    destruct (fetch_one_rng e w1 w2 Hg) as [Hr Hg'].
    destruct (IH _ _ Hg') as [Hrs Hg''].
    split; [|exact Hg''].
    now rewrite !map_app, Hr, Hrs.
Qed.

(** C4, as the code has it.  From the same state of the random source,
    two runs of [process_responses] on the same addresses return lists
    that agree in every field but the timestamp, which each response
    takes from the wall clock, and leave the random source in the same
    state.  The rates are the constants of the code. *)
Theorem C4_same_seed_same_classification
    (email_addresses : list string) (w1 w2 : World G C) :
  rng w1 = rng w2
  -> map untimed (fst (process_responses email_addresses w1))
     = map untimed (fst (process_responses email_addresses w2))
     /\ rng (snd (process_responses email_addresses w1))
        = rng (snd (process_responses email_addresses w2)).
Proof.
  intros Hg. rewrite !process_responses_eq. cbn [fst snd].
  destruct (simulate_fetch_responses_rng email_addresses w1 w2 Hg) as [Hr Hg'].
  split; [|exact Hg'].
  now rewrite !untimed_kept, Hr.
Qed.

End Classification.

(** ** Booking *)

Section BookerFacts.
Context {G C : Type} `{RandomSource G} `{Clock C}.

Lemma slots_of_day_spec (date : Py.datetime) (hours : list Z)
    (st : list slot * World G C) :
  same_logs (snd st) (snd (slots_of_day date hours st))
  /\ clock (snd (slots_of_day date hours st)) = clock (snd st)
  /\ exists added,
       fst (slots_of_day date hours st) = (fst st ++ added)%list
       /\ forall s, In s added -> exists h, In h hours /\ s = slot_at date h.
Proof.
  unfold slots_of_day.
  revert st; induction hours as [|h hours IH]; intros [acc w].
  - simpl. split; [apply same_logs_refl|]. split; [reflexivity|].
    exists []. rewrite app_nil_r. split; [reflexivity|]. intros s [].
  - cbn [fold_left fst snd]. rewrite draw_eq. cbn [fst snd].
    destruct (Py.Qltb (3 # 10) (fst (random (rng w)))).
    + match goal with
      | |- context [fold_left _ hours ?st] =>
          destruct (IH st) as (Hl & Hc & added & Hf & Ha)
      end.
      cbn [fst snd] in Hl, Hc, Hf.
      split; [exact Hl|]. split; [exact Hc|].
      exists (slot_at date h :: added). split.
      * rewrite Hf. now rewrite <- app_assoc.
      * intros s [<-|Hin].
        -- exists h. split; [now left|reflexivity].
        -- destruct (Ha s Hin) as (h' & Hh' & ->). exists h'.
           split; [now right|reflexivity].
    + match goal with
      | |- context [fold_left _ hours ?st] =>
          destruct (IH st) as (Hl & Hc & added & Hf & Ha)
      end.
      cbn [fst snd] in Hl, Hc, Hf.
      split; [exact Hl|]. split; [exact Hc|].
      exists added. split; [exact Hf|].
      intros s Hin. destruct (Ha s Hin) as (h' & Hh' & ->). exists h'.
      split; [now right|reflexivity].
Qed.

(** Every slot found lies on one of the days looked at, none of which is
    a Saturday or a Sunday, at one of the hours of the range. *)
Lemma find_available_slots_in_spec (days_ahead daily_slots : Z) (w : World G C) :
  same_logs w (snd (find_available_slots_in days_ahead daily_slots w))
  /\ forall s,
       In s (fst (find_available_slots_in days_ahead daily_slots w))
       -> exists day h,
            In day (Py.range 1 (days_ahead + 1) 1)
            /\ In h (Py.range 9 17 (8 / daily_slots))
            /\ (Py.weekday
                  (Py.datetime_add (fst (datetime_now (clock w)))
                     (Py.timedelta_days day)) < 5)%Z
            /\ s = slot_at
                     (Py.datetime_add (fst (datetime_now (clock w)))
                        (Py.timedelta_days day)) h.
Proof.
  unfold find_available_slots_in. rewrite read_eq.
  set (now := fst (datetime_now (clock w))).
  set (w0 := set_clock (snd (datetime_now (clock w))) w).
  assert (Hw0 : same_logs w w0) by (repeat split).
  set (hours := Py.range 9 17 (8 / daily_slots)).
  set (body := fun (st : list slot * World G C) (day : Z) =>
                 if (5 <=? Py.weekday (Py.datetime_add now (Py.timedelta_days day)))%Z
                 then st
                 else slots_of_day (Py.datetime_add now (Py.timedelta_days day))
                        hours st).
  assert (Hgen : forall days (st : list slot * World G C),
             same_logs (snd st) (snd (fold_left body days st))
             /\ exists added,
                  fst (fold_left body days st) = (fst st ++ added)%list
                  /\ forall s, In s added
                       -> exists day h,
                            In day days /\ In h hours
                            /\ (Py.weekday
                                  (Py.datetime_add now (Py.timedelta_days day)) < 5)%Z
                            /\ s = slot_at
                                     (Py.datetime_add now (Py.timedelta_days day)) h).
  { induction days as [|d days IH]; intros st.
    - simpl. split; [apply same_logs_refl|]. exists []. rewrite app_nil_r.
      split; [reflexivity|]. intros s [].
    - cbn [fold_left].
      assert (Hb : body st d
                   = if (5 <=? Py.weekday
                                 (Py.datetime_add now (Py.timedelta_days d)))%Z
                     then st
                     else slots_of_day
                            (Py.datetime_add now (Py.timedelta_days d)) hours st)
        by reflexivity.
      rewrite Hb. clear Hb.
      destruct (5 <=? Py.weekday (Py.datetime_add now (Py.timedelta_days d)))%Z
        eqn:Ewd.
      + destruct (IH st) as (Hl & added & Hf & Ha).
        split; [exact Hl|]. exists added. split; [exact Hf|].
        intros s Hin. destruct (Ha s Hin) as (day & h & Hd & Hh & Hw & ->).
        exists day, h. repeat split; try assumption. now right.
      + destruct (IH (slots_of_day
                        (Py.datetime_add now (Py.timedelta_days d)) hours st))
          as (Hl & added & Hf & Ha).
        destruct (slots_of_day_spec
                    (Py.datetime_add now (Py.timedelta_days d)) hours st)
          as (Hl1 & _ & added1 & Hf1 & Ha1).
        split; [eapply same_logs_trans; eassumption|].
        exists (added1 ++ added)%list. split.
        * rewrite Hf, Hf1. now rewrite <- app_assoc.
        * intros s Hin. apply in_app_or in Hin. destruct Hin as [Hin|Hin].
          -- destruct (Ha1 s Hin) as (h & Hh & ->). exists d, h.
             repeat split; try assumption; [now left|].
             apply Z.leb_gt in Ewd. exact Ewd.
          -- destruct (Ha s Hin) as (day & h & Hd & Hh & Hw & ->).
             exists day, h. repeat split; try assumption. now right. }
  destruct (Hgen (Py.range 1 (days_ahead + 1) 1) ([], w0))
    as (Hl & added & Hf & Ha).
  cbn [fst snd] in Hl, Hf. split.
  - exact (same_logs_trans _ _ _ Hw0 Hl).
  - intros s Hin. apply Ha. change (In s ([] ++ added)%list). now rewrite <- Hf.
Qed.

(** [book_meeting] records its call, makes no notification and sends no
    email. *)
Lemma book_meeting_logs (email : string) (w : World G C) :
  notify_calls (snd (book_meeting email w)) = notify_calls w
  /\ book_calls (snd (book_meeting email w)) = (book_calls w ++ [email])%list
  /\ hubspot_calls (snd (book_meeting email w)) = hubspot_calls w
  /\ slack_messages (snd (book_meeting email w)) = slack_messages w.
Proof.
  unfold book_meeting, find_available_slots.
  destruct (find_available_slots_in_spec 7 3 (log_book email w))
    as [(Hh & Hs & Hc & Hn & Hb) _].
  destruct (find_available_slots_in 7 3 (log_book email w)) as [slots w1].
  cbn [fst snd] in *.
  destruct slots as [|s slots]; cbn [snd].
  - rewrite Hn, Hb, Hh, Hs. repeat split.
  - unfold simulate_calendar_booking. step_world.
    match goal with
    | |- context [if ?b then _ else _] => destruct b
    end; cbn [snd set_rng log_calendar notify_calls book_calls hubspot_calls
                slack_messages];
      rewrite Hn, Hb, Hh, Hs; repeat split.
Qed.

Lemma default_hours : Py.range 9 17 (8 / 3) = [9; 11; 13; 15]%Z.
Proof. reflexivity. Qed.

Lemma slot_at_business (date : Py.datetime) (h : Z) :
  (Py.weekday date < 5)%Z
  -> In h [9; 11; 13; 15]%Z
  -> business_slot (slot_at date h).
Proof.
  intros Hwd Hh. unfold business_slot, slot_at. cbn [start_time end_time].
  assert (Hw : (0 <= Py.weekday (Py.replace_time date h) <= 4)%Z).
  { unfold Py.weekday in *. cbn [Py.replace_time Py.ordinal].
    pose proof (Z.mod_pos_bound (Py.ordinal date + 6) 7). lia. }
  split; [exact Hw|].
  simpl in Hh.
  destruct Hh as [<-|[<-|[<-|[<-|[]]]]];
    (split; [cbn; lia|]);
    repeat (split; [reflexivity|]);
    unfold Py.datetime_add, Py.replace_time, Py.timedelta_minutes;
    cbn [Py.ordinal Py.hour Py.minute Py.second Py.microsecond
         Py.td_days Py.td_seconds Py.td_microseconds];
    repeat split; try reflexivity;
    match goal with
    | |- (_ + 0 + ?q)%Z = _ =>
        replace q with 0%Z by reflexivity; lia
    end.
Qed.

(** C10.  With the default arguments, whatever the clock shows and
    whatever the availability draws are, every slot that
    [find_available_slots] returns starts on a weekday (Monday to Friday),
    on a whole hour from 9 to 16 with minutes, seconds and microseconds
    zero, and ends thirty minutes after it starts, on the same day. *)
Theorem C10_slots_are_business_half_hours (w : World G C) :
  Forall business_slot (fst (find_available_slots w)).
Proof.
  apply Forall_forall. intros s Hin.
  unfold find_available_slots in Hin.
  destruct (find_available_slots_in_spec 7 3 w) as [_ Hspec].
  destruct (Hspec s Hin) as (day & h & _ & Hh & Hwd & ->).
  rewrite default_hours in Hh.
  now apply slot_at_business.
Qed.

End BookerFacts.

(** ** Sending *)

Section SenderFacts.
Context {G C : Type} `{RandomSource G} `{Clock C}.

Lemma send_initial_emails_eq (cs : list contact) :
  send_initial_emails cs = foldM (send_body "initial" initial_data) cs [].
Proof. unfold send_initial_emails, send_body, initial_data. reflexivity. Qed.

Lemma send_followup_emails_eq (cs : list contact) :
  send_followup_emails cs = foldM (send_body "followup" followup_data) cs [].
Proof. unfold send_followup_emails, send_body, followup_data. reflexivity. Qed.

Lemma foldM_cons_ok {S A B : Type} (body : B -> A -> M S B)
    (a : A) (l : list A) (acc acc' : B) (s s' : S) :
  body acc a s = (Ok acc', s')
  -> foldM body (a :: l) acc s = foldM body l acc' s'.
Proof. intros Hb. simpl. unfold bind. now rewrite Hb. Qed.

Lemma foldM_cons_raise {S A B : Type} (body : B -> A -> M S B)
    (a : A) (l : list A) (acc : B) (e : exn) (s s' : S) :
  body acc a s = (Raise e, s')
  -> foldM body (a :: l) acc s = (Raise e, s').
Proof. intros Hb. simpl. unfold bind. now rewrite Hb. Qed.

(** One step of a loop: either the rendering raises and nothing is sent,
    or one request goes to the contact's address and one id is kept. *)
Lemma send_body_step (template_name : string)
    (data : contact -> string -> api_data)
    (Hto : forall c text, to (data c text) = email c)
    (acc : list N) (c : contact) (w : World G C) :
  (exists e,
      format_email_from_template template_name c = Raise e
      /\ send_body template_name data acc c w = (Raise e, w))
  \/ (exists text n w',
        format_email_from_template template_name c = Ok text
        /\ send_body template_name data acc c w = (Ok (acc ++ [n])%list, w')
        /\ hubspot_calls w'
           = (hubspot_calls w ++ [("emails/send", data c text)])%list
        /\ slack_messages w' = slack_messages w
        /\ notify_calls w' = notify_calls w
        /\ book_calls w' = book_calls w).
Proof.
  unfold send_body, bind, lift.
  destruct (format_email_from_template template_name c) as [text|e].
  - right. unfold simulate_hubspot_api_call. step_world.
    cbn [status id String.eqb Ascii.eqb Bool.eqb]. unfold ret.
    do 3 eexists. split; [reflexivity|]. split; [reflexivity|].
    repeat split.
  - left. exists e. now split.
Qed.

(** A whole loop: the requests it makes go, in order, to a prefix of the
    contact list; when every rendering succeeds they go to all of it and
    one id is returned for each. *)
Lemma send_loop_spec (template_name : string)
    (data : contact -> string -> api_data)
    (Hto : forall c text, to (data c text) = email c)
    (cs : list contact) (acc : list N) (w : World G C) :
  exists sent,
    hubspot_calls (snd (foldM (send_body template_name data) cs acc w))
    = (hubspot_calls w ++ sent)%list
    /\ incl (recipients sent) (map email cs)
    /\ ((forall c, In c cs
           -> exists text, format_email_from_template template_name c = Ok text)
        -> recipients sent = map email cs
           /\ exists ids,
                fst (foldM (send_body template_name data) cs acc w) = Ok ids
                /\ List.length ids = (List.length acc + List.length cs)%nat).
Proof.
  revert acc w; induction cs as [|c cs IH]; intros acc w.
  - exists []. simpl. rewrite app_nil_r. split; [reflexivity|].
    split; [intros x []|]. intros _. split; [reflexivity|].
    exists acc. split; [reflexivity|lia].
  - destruct (send_body_step template_name data Hto acc c w)
      as [(e & Hfmt & Hb)|(text & n & w' & Hfmt & Hb & Hcalls & _)].
    + rewrite (foldM_cons_raise _ _ _ _ _ _ _ Hb).
      exists []. cbn [snd fst]. rewrite app_nil_r. split; [reflexivity|].
      split; [intros x []|]. intros Hall.
      destruct (Hall c (or_introl eq_refl)) as [text Htext]. congruence.
    + rewrite (foldM_cons_ok _ _ _ _ _ _ _ Hb).
      destruct (IH (acc ++ [n])%list w') as (sent & Hsent & Hincl & Hok).
      exists (("emails/send", data c text) :: sent).
      split; [|split].
      * rewrite Hsent, Hcalls. now rewrite <- app_assoc.
      * unfold recipients; simpl. rewrite Hto.
        intros x [<-|Hx]; [now left|right; now apply Hincl].
      * intros Hall.
        destruct Hok as [Hrec (ids & Hids & Hlen)].
        { intros c' Hc'. apply Hall. now right. }
        split.
        -- unfold recipients in *; simpl. now rewrite Hto, Hrec.
        -- exists ids. split; [exact Hids|].
           rewrite Hlen, length_app. simpl. lia.
Qed.

(** The initial and the follow-up template use no optional key beyond
    [recent_news], which is defaulted: they render for every contact. *)
Lemma format_initial_ok (c : contact) :
  exists text, format_email_from_template "initial" c = Ok text.
Proof.
  destruct c as [co cs ind web cn ro em li ints news la].
  destruct ints; destruct news; vm_compute; eexists; reflexivity.
Qed.

Lemma format_followup_ok (c : contact) :
  exists text, format_email_from_template "followup" c = Ok text.
Proof.
  destruct c as [co cs ind web cn ro em li ints news la].
  destruct ints; destruct news; vm_compute; eexists; reflexivity.
Qed.

(** C5, as the code has it.  A call of [send_initial_emails] or of
    [send_followup_emails] makes one request for every contact of the list
    it is given, in order, and returns one id for each; it consults no
    status and no record of earlier sends.  Calling the follow-up sender a
    second time with the same list therefore sends to every contact
    again. *)
Theorem C5_each_call_sends_to_every_contact
    (contacts : list contact) (w : World G C) :
  (exists ids sent,
      fst (send_initial_emails contacts w) = Ok ids
      /\ List.length ids = List.length contacts
      /\ hubspot_calls (snd (send_initial_emails contacts w))
         = (hubspot_calls w ++ sent)%list
      /\ recipients sent = map email contacts)
  /\ (exists ids sent,
         fst (send_followup_emails contacts w) = Ok ids
         /\ List.length ids = List.length contacts
         /\ hubspot_calls (snd (send_followup_emails contacts w))
            = (hubspot_calls w ++ sent)%list
         /\ recipients sent = map email contacts)
  /\ (exists sent sent',
         hubspot_calls
           (snd (send_followup_emails contacts
                   (snd (send_followup_emails contacts w))))
         = (hubspot_calls w ++ sent ++ sent')%list
         /\ recipients sent = map email contacts
         /\ recipients sent' = map email contacts).
Proof.
  assert (Hi : forall c text, to (initial_data c text) = email c)
    by reflexivity.
  assert (Hf : forall c text, to (followup_data c text) = email c)
    by reflexivity.
  assert (Hfollow : forall w0 : World G C,
             exists ids sent,
               fst (send_followup_emails contacts w0) = Ok ids
               /\ List.length ids = List.length contacts
               /\ hubspot_calls (snd (send_followup_emails contacts w0))
                  = (hubspot_calls w0 ++ sent)%list
               /\ recipients sent = map email contacts).
  { intros w0. rewrite send_followup_emails_eq.
    destruct (send_loop_spec "followup" followup_data Hf contacts [] w0)
      as (sent & Hsent & _ & Hok).
    destruct Hok as [Hrec (ids & Hids & Hlen)].
    { intros c _. apply format_followup_ok. }
    exists ids, sent. repeat split; assumption. }
  split; [|split].
  - rewrite send_initial_emails_eq.
    destruct (send_loop_spec "initial" initial_data Hi contacts [] w)
      as (sent & Hsent & _ & Hok).
    destruct Hok as [Hrec (ids & Hids & Hlen)].
    { intros c _. apply format_initial_ok. }
    exists ids, sent. repeat split; assumption.
  - apply Hfollow.
  - destruct (Hfollow w) as (ids & sent & _ & _ & Hsent & Hrec).
    destruct (Hfollow (snd (send_followup_emails contacts w)))
      as (ids' & sent' & _ & _ & Hsent' & Hrec').
    exists sent, sent'. rewrite Hsent', Hsent.
    rewrite <- app_assoc. repeat split; assumption.
Qed.

End SenderFacts.

(** ** The campaign store *)

Section Campaign.
Context {G C : Type} `{RandomSource G} `{Clock C}.

Lemma handled_nil (st : Store * World G C) : handled [] st st.
Proof.
  unfold handled, addresses, notifications; simpl.
  rewrite !app_nil_r. repeat split. exists []. rewrite app_nil_r.
  split; [reflexivity|]. intros x [].
Qed.

Lemma handled_app (rs1 rs2 : list response) (st0 st1 st2 : Store * World G C) :
  handled rs1 st0 st1 -> handled rs2 st1 st2 -> handled (rs1 ++ rs2) st0 st2.
Proof.
  unfold handled, addresses, notifications.
  intros (a1 & a2 & a3 & a4 & a5 & a6 & (m1 & a7 & i1) & a8 & a9 & a10)
         (b1 & b2 & b3 & b4 & b5 & b6 & (m2 & b7 & i2) & b8 & b9 & b10).
  rewrite !filter_app, !map_app.
  repeat split; try congruence.
  - rewrite b3, a3. now rewrite app_assoc.
  - rewrite b4, a4. now rewrite app_assoc.
  - rewrite b5, a5. now rewrite app_assoc.
  - rewrite b6, a6. now rewrite app_assoc.
  - exists (m1 ++ m2)%list. split.
    + rewrite b7, a7. now rewrite app_assoc.
    + intros x Hx. apply in_app_or in Hx. apply in_or_app.
      destruct Hx as [Hx|Hx]; [left; now apply i1|right; now apply i2].
  - rewrite b8, a8. now rewrite app_assoc.
  - rewrite b9, a9. now rewrite app_assoc.
Qed.

Lemma handle_response_handled (st : Store * World G C) (r : response) :
  handled [r] st (handle_response st r).
Proof.
  destruct st as [cd w]. unfold handled, addresses, notifications.
  destruct r as [e rn t|e rn t|e c o i t]; cbn [handle_response response_email].
  - cbn. rewrite !app_nil_r. repeat split. exists []. rewrite app_nil_r.
    split; [reflexivity|]. intros x [].
  - cbn. rewrite !app_nil_r. repeat split. exists []. rewrite app_nil_r.
    split; [reflexivity|]. intros x [].
  - destruct i.
    + unfold notify_on_interest, send_to_slack.
      destruct (book_meeting_logs e (log_slack (Notifier.message e c)
                                       (log_notify e c w)))
        as (Hn & Hb & Hh & _).
      destruct (book_meeting e (log_slack (Notifier.message e c)
                                  (log_notify e c w))) as [booked w'].
      cbn [fst snd] in Hn, Hb, Hh.
      destruct booked; cbn; rewrite ?app_nil_r, Hn, Hb, Hh; repeat split.
      * exists [e]. split; [reflexivity|]. intros x Hx. exact Hx.
      * exists []. rewrite app_nil_r. split; [reflexivity|]. intros x [].
    + cbn. rewrite !app_nil_r. repeat split. exists []. rewrite app_nil_r.
      split; [reflexivity|]. intros x [].
Qed.

Lemma handle_fold_handled (rs : list response) (st : Store * World G C) :
  handled rs st (fold_left handle_response rs st).
Proof.
  revert st; induction rs as [|r rs IH]; intros st.
  - apply handled_nil.
  - exact (handled_app [r] rs _ _ _ (handle_response_handled st r)
             (IH (handle_response st r))).
Qed.

Lemma check_responses_handled (cd : Store) (w : World G C) :
  handled (responses_handled cd w)
    (cd, snd (process_responses (sent_initial cd) w))
    (check_responses cd w).
Proof.
  unfold check_responses, responses_handled.
  destruct (process_responses (sent_initial cd) w) as [rs w'].
  apply handle_fold_handled.
Qed.

Lemma addresses_count (p : response -> bool) (rs : list response) (a : string) :
  (count_occ string_dec (addresses p rs) a <= count_for a rs)%nat.
Proof.
  unfold addresses, count_for.
  induction rs as [|r rs IH]; simpl; [lia|].
  destruct (String.eqb_spec (response_email r) a) as [Ha|Ha];
    destruct (p r); simpl;
    destruct (string_dec (response_email r) a); try congruence; lia.
Qed.

Lemma count_for_filter (p : response -> bool) (rs : list response) (a : string) :
  (count_for a (filter p rs) <= count_for a rs)%nat.
Proof.
  unfold count_for. induction rs as [|r rs IH]; simpl; [lia|].
  destruct (p r); simpl;
    destruct (String.eqb (response_email r) a); simpl; lia.
Qed.

Lemma addresses_interested_replied (rs : list response) :
  incl (addresses response_is_interested rs) (addresses is_replied rs).
Proof.
  unfold addresses. induction rs as [|r rs IH]; simpl; [intros x []|].
  destruct r as [e rn t|e rn t|e c o i t]; simpl; try exact IH.
  destruct i; simpl.
  - intros x [<-|Hx]; [now left|right; now apply IH].
  - intros x Hx. right. now apply IH.
Qed.

Lemma process_responses_same_logs (es : list string) (w : World G C) :
  same_logs w (snd (process_responses es w)).
Proof.
  rewrite process_responses_eq. cbn [snd].
  apply simulate_fetch_responses_same_logs.
Qed.

Lemma notifications_addresses (rs : list response) :
  map fst (notifications rs) = addresses response_is_interested rs.
Proof. unfold notifications, addresses. now rewrite map_map. Qed.

(** C1, as the code has it.  Within one call of [check_responses] every
    entry of [sent_initial] is classified once, so an address listed once
    is appended to the interested bucket at most once by that call, and
    [notify_on_interest] and [book_meeting] are each called exactly once
    for every address the call appends.  Nothing carries over from one
    call to the next: every call classifies all the addresses afresh. *)
Theorem C1_one_transition_per_entry_per_check (cd : Store) (w : World G C) :
  exists newly,
    interested (fst (check_responses cd w)) = (interested cd ++ newly)%list
    /\ map fst (notify_calls (snd (check_responses cd w)))
       = (map fst (notify_calls w) ++ newly)%list
    /\ book_calls (snd (check_responses cd w)) = (book_calls w ++ newly)%list
    /\ forall a,
         (count_occ string_dec newly a
          <= count_occ string_dec (sent_initial cd) a)%nat.
Proof.
  exists (addresses response_is_interested (responses_handled cd w)).
  destruct (check_responses_handled cd w)
    as (_ & _ & _ & _ & _ & Hi & _ & Hn & Hb & _).
  destruct (process_responses_same_logs (sent_initial cd) w)
    as (_ & _ & _ & Hn0 & Hb0).
  cbn [fst snd] in Hi, Hn, Hb.
  split; [exact Hi|]. split; [|split].
  - rewrite Hn, Hn0, map_app. now rewrite notifications_addresses.
  - now rewrite Hb, Hb0.
  - intros a. eapply Nat.le_trans; [apply addresses_count|].
    unfold responses_handled. rewrite process_responses_eq. cbn [fst].
    eapply Nat.le_trans; [apply count_for_filter|].
    apply simulate_fetch_responses_count.
Qed.

(** *** Containment of the buckets *)

(** C9.  The containment of [meetings_booked] in [interested] and of
    [interested] in [replied] holds for the store as the module creates it
    and is kept by every call of [check_responses]; handling one response
    appends to [interested] only an address it appends to [replied], and
    to [meetings_booked] only an address it appends to [interested]. *)
Theorem C9_buckets_stay_contained :
  contained campaign_data
  /\ (forall (cd : Store) (w : World G C),
         contained cd -> contained (fst (check_responses cd w)))
  /\ (forall (cd : Store) (w : World G C) (r : response),
         exists to_replied to_interested to_booked,
           replied (fst (handle_response (cd, w) r))
           = (replied cd ++ to_replied)%list
           /\ interested (fst (handle_response (cd, w) r))
              = (interested cd ++ to_interested)%list
           /\ meetings_booked (fst (handle_response (cd, w) r))
              = (meetings_booked cd ++ to_booked)%list
           /\ incl to_booked to_interested
           /\ incl to_interested to_replied).
Proof.
  split; [|split].
  - split; intros x [].
  - intros cd w [Hm Hi].
    destruct (check_responses_handled cd w)
      as (_ & _ & _ & _ & Hr & Hi' & (booked & Hm' & Hb) & _).
    cbn [fst] in Hr, Hi', Hm'. unfold contained.
    rewrite Hr, Hi', Hm'. split.
    + intros x Hx. apply in_app_or in Hx. apply in_or_app.
      destruct Hx as [Hx|Hx]; [left; now apply Hm|right; now apply Hb].
    + intros x Hx. apply in_app_or in Hx. apply in_or_app.
      destruct Hx as [Hx|Hx]; [left; now apply Hi|right].
      now apply addresses_interested_replied.
  - intros cd w r.
    destruct (handle_response_handled (cd, w) r)
      as (_ & _ & _ & _ & Hr & Hi' & (booked & Hm' & Hb) & _).
    cbn [fst] in Hr, Hi', Hm'.
    exists (addresses is_replied [r]),
           (addresses response_is_interested [r]), booked.
    repeat split; try assumption.
    apply addresses_interested_replied.
Qed.

(** *** Eligibility *)

Lemma mem_app_absent (a : string) (l added : list string) :
  ~ In a added -> Str.mem a (l ++ added) = Str.mem a l.
Proof.
  intros Hno. unfold Str.mem. rewrite existsb_app.
  apply StrFacts.mem_false in Hno. unfold Str.mem in Hno. rewrite Hno.
  apply orb_false_r.
Qed.

Lemma count_occ_app_absent (a : string) (l added : list string) :
  ~ In a added
  -> count_occ string_dec (l ++ added) a = count_occ string_dec l a.
Proof.
  intros Hno. rewrite count_occ_app.
  apply (count_occ_not_In string_dec) in Hno. lia.
Qed.

Lemma eligible_not_in_buckets (cd : Store) (c : contact) :
  In c (eligible_contacts cd)
  -> ~ In (email c) (bounced cd)
     /\ ~ In (email c) (unsubscribed cd)
     /\ ~ In (email c) (replied cd).
Proof.
  unfold eligible_contacts, is_eligible. intros Hin.
  apply filter_In in Hin. destruct Hin as [_ Hel].
  apply andb_prop in Hel. destruct Hel as [Hb Hel].
  apply andb_prop in Hel. destruct Hel as [Hu Hr].
  apply negb_true_iff in Hb, Hu, Hr.
  repeat split; now apply StrFacts.mem_false.
Qed.

Lemma eligible_emails (cd : Store) (a : string) :
  In a (map email (eligible_contacts cd))
  -> ~ In a (bounced cd) /\ ~ In a (unsubscribed cd) /\ ~ In a (replied cd).
Proof.
  intros Hin. apply in_map_iff in Hin. destruct Hin as (c & <- & Hc).
  now apply eligible_not_in_buckets.
Qed.

(** An address whose responses of the pass are all out-of-office is the
    address of no response that is handled. *)
Lemma out_of_office_not_handled (cd : Store) (w : World G C) (e : string)
    (p : response -> bool) :
  (forall r, In r (fst (simulate_fetch_responses (sent_initial cd) w))
             -> response_email r = e
             -> response_is_out_of_office r = true)
  -> ~ In e (addresses p (responses_handled cd w)).
Proof.
  intros Hooo Hin. unfold addresses, responses_handled in Hin.
  rewrite process_responses_eq in Hin. cbn [fst] in Hin.
  apply in_map_iff in Hin. destruct Hin as (r & He & Hr).
  apply filter_In in Hr. destruct Hr as [Hr _].
  apply filter_In in Hr. destruct Hr as [Hr Hk].
  unfold kept in Hk. rewrite (Hooo r Hr He) in Hk. discriminate.
Qed.

(** C8, as the code has it.  When every response that a pass fetches for
    an address is an out-of-office reply, [check_responses] adds the
    address to no bucket, and the eligibility of a contact with that
    address is what it was before the pass: the contact is in the eligible
    list of a stage send after the pass exactly when it was before it.  No
    exclusion is made, not even for the cycle of the reply. *)
Theorem C8_out_of_office_changes_nothing
    (cd : Store) (w : World G C) (e : string) :
  (forall r, In r (fst (simulate_fetch_responses (sent_initial cd) w))
             -> response_email r = e
             -> response_is_out_of_office r = true)
  -> count_occ string_dec (bounced (fst (check_responses cd w))) e
     = count_occ string_dec (bounced cd) e
     /\ count_occ string_dec (unsubscribed (fst (check_responses cd w))) e
        = count_occ string_dec (unsubscribed cd) e
     /\ count_occ string_dec (replied (fst (check_responses cd w))) e
        = count_occ string_dec (replied cd) e
     /\ count_occ string_dec (interested (fst (check_responses cd w))) e
        = count_occ string_dec (interested cd) e
     /\ count_occ string_dec (meetings_booked (fst (check_responses cd w))) e
        = count_occ string_dec (meetings_booked cd) e
     /\ forall c, email c = e
          -> is_eligible (fst (check_responses cd w)) c = is_eligible cd c
             /\ (In c (eligible_contacts (fst (check_responses cd w)))
                 <-> In c (eligible_contacts cd)).
Proof.
  intros Hooo.
  destruct (check_responses_handled cd w)
    as (Hc & _ & Hb & Hu & Hr & Hi & (booked & Hm & Hbk) & _).
  cbn [fst] in Hc, Hb, Hu, Hr, Hi, Hm.
  assert (Hno : forall p, ~ In e (addresses p (responses_handled cd w)))
    by (intros p; now apply out_of_office_not_handled).
  assert (Hnobk : ~ In e booked) by (intros Hin; exact (Hno _ (Hbk e Hin))).
  rewrite Hb, Hu, Hr, Hi, Hm.
  repeat (split; [now apply count_occ_app_absent|]).
  intros c Hce. subst e.
  assert (Hel : is_eligible (fst (check_responses cd w)) c = is_eligible cd c).
  { unfold is_eligible. rewrite Hb, Hu, Hr.
    now rewrite !mem_app_absent by apply Hno. }
  split; [exact Hel|].
  unfold eligible_contacts. rewrite !filter_In, Hc, Hel. reflexivity.
Qed.

(** *** The stage sends *)

Lemma bind_ret_snd {S A : Type} (c : M S A) (s : S) :
  snd ((_ <- c ;; ret tt) s) = snd (c s).
Proof. unfold bind, ret. now destruct (c s) as [[a|e] s']. Qed.

Lemma enrich_contact_data_emails (l : list contact) (g : G) :
  map email (fst (enrich_contact_data l g)) = map email l.
Proof.
  revert g; induction l as [|c l IH]; intros g; simpl; [reflexivity|].
  unfold enrich_one.
  destruct (randint 1 3 g) as [k g1].
  destruct (sample "" enrich_interests (N.to_nat k) g1) as [ints g2].
  destruct (choice "" company_news g2) as [news g3].
  destruct (randint 1 30 g3) as [days g4].
  specialize (IH g4). destruct (enrich_contact_data l g4) as [rest g5].
  simpl in *. now rewrite IH.
Qed.

Lemma send_personalized_emails_eq (cs : list contact) (w : World G C) :
  snd (send_personalized_emails cs w)
  = foldM (send_body "personalized" personalized_data)
      (fst (enrich_contact_data cs (rng w))) []
      (set_rng (snd (enrich_contact_data cs (rng w))) w).
Proof.
  unfold send_personalized_emails. rewrite draw_eq. cbn [fst snd].
  unfold send_body, personalized_data. reflexivity.
Qed.

(** C3.  A contact whose address is in the bounced or in the unsubscribed
    bucket is not in the eligible list that [day3_followup] and
    [day4_personalized] compute, and none of the requests that either
    stage makes goes to its address. *)
Theorem C3_bounced_or_unsubscribed_never_eligible (cd : Store) (c : contact) :
  In (email c) (bounced cd) \/ In (email c) (unsubscribed cd)
  -> ~ In c (eligible_contacts cd)
     /\ (forall w : World G C,
           exists sent,
             hubspot_calls (snd (day3_followup cd w))
             = (hubspot_calls w ++ sent)%list
             /\ ~ In (email c) (recipients sent))
     /\ (forall w : World G C,
           exists sent,
             hubspot_calls (snd (snd (day4_personalized cd w)))
             = (hubspot_calls w ++ sent)%list
             /\ ~ In (email c) (recipients sent)).
Proof.
  intros Hin.
  assert (Hnot : ~ In (email c) (map email (eligible_contacts cd))).
  { intros He. apply eligible_emails in He. tauto. }
  split; [|split].
  - intros Hc. apply Hnot. now apply in_map.
  - intros w. unfold day3_followup. rewrite bind_ret_snd.
    rewrite send_followup_emails_eq.
    destruct (send_loop_spec "followup" followup_data
                (fun _ _ => eq_refl) (eligible_contacts cd) [] w)
      as (sent & Hsent & Hincl & _).
    exists sent. split; [exact Hsent|].
    intros Hs. apply Hnot. now apply Hincl.
  - intros w. unfold day4_personalized.
    rewrite (surjective_pairing (send_personalized_emails (eligible_contacts cd) w)).
    cbn [snd]. rewrite bind_ret_snd. unfold lift. cbn [snd].
    rewrite send_personalized_emails_eq.
    destruct (send_loop_spec "personalized" personalized_data
                (fun _ _ => eq_refl)
                (fst (enrich_contact_data (eligible_contacts cd) (rng w))) []
                (set_rng (snd (enrich_contact_data (eligible_contacts cd) (rng w)))
                   w))
      as (sent & Hsent & Hincl & _).
    exists sent. split; [exact Hsent|].
    intros Hs. apply Hnot. apply Hincl in Hs.
    now rewrite enrich_contact_data_emails in Hs.
Qed.

End Campaign.

(** C1, as stated, fails: two successive checks classify John as
    interested twice, and the notifier and the booker are called twice for
    him, although his address is listed once. *)
Lemma C1_two_checks_classify_twice :
  count_occ string_dec (sent_initial Demo.store_john) Demo.john_email = 1%nat
  /\ interested
       (fst (check_responses_n 2 Demo.store_john
               (Demo.world_of Demo.draws_interested 0)))
     = [Demo.john_email; Demo.john_email]
  /\ map fst
       (notify_calls
          (snd (check_responses_n 2 Demo.store_john
                  (Demo.world_of Demo.draws_interested 0))))
     = [Demo.john_email; Demo.john_email]
  /\ book_calls
       (snd (check_responses_n 2 Demo.store_john
               (Demo.world_of Demo.draws_interested 0)))
     = [Demo.john_email; Demo.john_email].
Proof. repeat split; vm_compute; reflexivity. Qed.

(** C2 at work: with every draw at 0.01 the bounce check succeeds and the
    one outcome is a bounce. *)
Lemma C2_bounce_comes_first :
  Py.Qltb (fst (random (rng (Demo.world_of Demo.draws_bounce 0)))) (5 # 100)
  = true
  /\ exists new,
       fst (fetch_one Demo.john_email [] (Demo.world_of Demo.draws_bounce 0))
       = ([] ++ new)%list
       /\ exists reason ts, new = [Bounced Demo.john_email reason ts].
Proof.
  pose proof (C2_one_outcome_in_precedence_order Demo.john_email []
                (Demo.world_of Demo.draws_bounce 0)) as Hc.
  cbv zeta in Hc. destruct Hc as [(new & Happ & _ & _ & Hb & _) _].
  split; [reflexivity|].
  exists new. split; [exact Happ|]. apply Hb. reflexivity.
Defined.

(** C3 at work: John, bounced, is not eligible and gets no follow-up. *)
Lemma C3_bounced_john_is_skipped :
  (In (email Demo.john) (bounced Demo.store_john_bounced)
   \/ In (email Demo.john) (unsubscribed Demo.store_john_bounced))
  /\ ~ In Demo.john (eligible_contacts Demo.store_john_bounced)
  /\ exists sent,
       hubspot_calls
         (snd (day3_followup Demo.store_john_bounced
                 (Demo.world_of Demo.draws_bounce 0)))
       = ([] ++ sent)%list
       /\ ~ In (email Demo.john) (recipients sent).
Proof.
  assert (Hin : In (email Demo.john) (bounced Demo.store_john_bounced)
                \/ In (email Demo.john) (unsubscribed Demo.store_john_bounced))
    by (left; simpl; left; reflexivity).
  destruct (@C3_bounced_or_unsubscribed_never_eligible Tape FixedClock _ _
              Demo.store_john_bounced Demo.john Hin) as (Hno & Hd3 & _).
  split; [exact Hin|]. split; [exact Hno|].
  exact (Hd3 (Demo.world_of Demo.draws_bounce 0)).
Defined.

(** C4, as stated, fails: two runs from the same state of the random
    source, one second apart, return lists that differ in the
    timestamp. *)
Lemma C4_same_seed_different_timestamps :
  rng (Demo.world_of Demo.draws_bounce 0) = rng (Demo.world_of Demo.draws_bounce 1)
  /\ fst (process_responses [Demo.john_email] (Demo.world_of Demo.draws_bounce 0))
     = [Bounced Demo.john_email "invalid_email" 0]
  /\ fst (process_responses [Demo.john_email] (Demo.world_of Demo.draws_bounce 1))
     = [Bounced Demo.john_email "invalid_email" 1]
  /\ fst (process_responses [Demo.john_email] (Demo.world_of Demo.draws_bounce 0))
     <> fst (process_responses [Demo.john_email] (Demo.world_of Demo.draws_bounce 1)).
Proof.
  repeat split; try (vm_compute; reflexivity).
  vm_compute. discriminate.
Qed.

(** C4 at work on the same two runs. *)
Lemma C4_same_seed_agree_up_to_timestamp :
  rng (Demo.world_of Demo.draws_bounce 0) = rng (Demo.world_of Demo.draws_bounce 1)
  /\ map untimed
       (fst (process_responses [Demo.john_email]
               (Demo.world_of Demo.draws_bounce 0)))
     = map untimed
         (fst (process_responses [Demo.john_email]
                 (Demo.world_of Demo.draws_bounce 1))).
Proof.
  split; [reflexivity|].
  apply (C4_same_seed_same_classification [Demo.john_email]
           (Demo.world_of Demo.draws_bounce 0)
           (Demo.world_of Demo.draws_bounce 1)).
  reflexivity.
Defined.

(** C5, as stated, fails: two calls of the follow-up sender with the same
    one-contact list make two requests to that contact. *)
Lemma C5_second_call_sends_again :
  recipients
    (hubspot_calls
       (snd (send_followup_emails [Demo.john]
               (snd (send_followup_emails [Demo.john]
                       (Demo.world_of Demo.draws_bounce 0))))))
  = [Demo.john_email; Demo.john_email].
Proof. vm_compute. reflexivity. Qed.

(** C7 at work: John has neither [recent_news] nor [interests]; the
    personalized template renders with the defaults. *)
Lemma C7_john_renders_with_defaults :
  (In "personalized" registered /\ interests Demo.john = None)
  /\ exists text, format_email_from_template "personalized" Demo.john = Ok text.
Proof.
  destruct (C7_unknown_template_and_defaults "personalized" Demo.john)
    as (_ & _ & Hint & _).
  assert (Hreg : In "personalized" registered)
    by (unfold registered; simpl; tauto).
  split; [split; [exact Hreg|reflexivity]|].
  exact (proj2 (Hint Hreg eq_refl)).
Defined.

(** C8, as stated, fails: in the very cycle in which John's reply is
    classified out-of-office he is in the eligible list, and the follow-up
    stage run right after the check sends to him. *)
Lemma C8_out_of_office_still_eligible :
  fst (simulate_fetch_responses (sent_initial Demo.store_john)
         (Demo.world_of Demo.draws_out_of_office 0))
  = [Replied Demo.john_email ooo_content true false 0]
  /\ eligible_contacts
       (fst (check_responses Demo.store_john
               (Demo.world_of Demo.draws_out_of_office 0)))
     = [Demo.john]
  /\ recipients
       (hubspot_calls
          (snd (day3_followup
                  (fst (check_responses Demo.store_john
                          (Demo.world_of Demo.draws_out_of_office 0)))
                  (snd (check_responses Demo.store_john
                          (Demo.world_of Demo.draws_out_of_office 0))))))
     = [Demo.john_email].
Proof. repeat split; vm_compute; reflexivity. Qed.

(** C8 at work on the same pass. *)
Lemma C8_out_of_office_john_unchanged :
  fst (simulate_fetch_responses (sent_initial Demo.store_john)
         (Demo.world_of Demo.draws_out_of_office 0))
  = [Replied Demo.john_email ooo_content true false 0]
  /\ count_occ string_dec
       (replied (fst (check_responses Demo.store_john
                        (Demo.world_of Demo.draws_out_of_office 0))))
       Demo.john_email
     = count_occ string_dec (replied Demo.store_john) Demo.john_email
  /\ (In Demo.john
        (eligible_contacts
           (fst (check_responses Demo.store_john
                   (Demo.world_of Demo.draws_out_of_office 0))))
      <-> In Demo.john (eligible_contacts Demo.store_john)).
Proof.
  assert (Hraw : fst (simulate_fetch_responses (sent_initial Demo.store_john)
                        (Demo.world_of Demo.draws_out_of_office 0))
                 = [Replied Demo.john_email ooo_content true false 0])
    by (vm_compute; reflexivity).
  assert (Hooo : forall r,
             In r (fst (simulate_fetch_responses (sent_initial Demo.store_john)
                          (Demo.world_of Demo.draws_out_of_office 0)))
             -> response_email r = Demo.john_email
             -> response_is_out_of_office r = true).
  { intros r Hr _. rewrite Hraw in Hr. destruct Hr as [<-|[]]. reflexivity. }
  destruct (C8_out_of_office_changes_nothing Demo.store_john
              (Demo.world_of Demo.draws_out_of_office 0) Demo.john_email Hooo)
    as (_ & _ & Hr & _ & _ & Hel).
  split; [exact Hraw|]. split; [exact Hr|].
  exact (proj2 (Hel Demo.john eq_refl)).
Defined.

(** C9 at work: the containment survives a check in which John is
    interested and a meeting is booked. *)
Lemma C9_contained_after_a_check :
  contained Demo.store_john
  /\ contained
       (fst (check_responses Demo.store_john
               (Demo.world_of Demo.draws_interested 0))).
Proof.
  assert (H0 : contained Demo.store_john) by (split; intros x []).
  split; [exact H0|].
  exact (proj1 (proj2 (@C9_buckets_stay_contained Tape FixedClock _ _))
           Demo.store_john (Demo.world_of Demo.draws_interested 0) H0).
Defined.

(** C10 at work: on Monday 2024-01-01 the first slot found is Tuesday at
    nine, and it is a business slot. *)
Lemma C10_first_slot_is_business :
  hd_error (fst (find_available_slots (Demo.world_of Demo.draws_interested 0)))
  = Some (slot_at (Py.mkDatetime 738887 10 0 0 0) 9)
  /\ business_slot (slot_at (Py.mkDatetime 738887 10 0 0 0) 9).
Proof.
  assert (Hhd : hd_error (fst (find_available_slots
                                 (Demo.world_of Demo.draws_interested 0)))
                = Some (slot_at (Py.mkDatetime 738887 10 0 0 0) 9))
    by (vm_compute; reflexivity).
  split; [exact Hhd|].
  pose proof (C10_slots_are_business_half_hours
                (Demo.world_of Demo.draws_interested 0)) as Hall.
  destruct (fst (find_available_slots (Demo.world_of Demo.draws_interested 0)))
    as [|s rest]; [discriminate Hhd|].
  injection Hhd as <-. exact (Forall_inv Hall).
Defined.

(** * Further properties of the code *)

(** ** Letter case *)

Lemma lower_ascii_idempotent (c : ascii) :
  Str.lower_ascii (Str.lower_ascii c) = Str.lower_ascii c.
Proof. destruct c as [[] [] [] [] [] [] [] []]; reflexivity. Qed.

Lemma lower_idempotent (s : string) : Str.lower (Str.lower s) = Str.lower s.
Proof.
  induction s as [|c s IH]; simpl; [reflexivity|].
  now rewrite lower_ascii_idempotent, IH.
Qed.

(** ** Lead source, continued *)

Lemma emails_of_filtered (keep : Raw.person -> bool) (cs : list Raw.company) :
  map email
    (flat_map (fun c => map (contact_info c) (filter keep (Raw.contacts c))) cs)
  = map Raw.email (filter keep (flat_map Raw.contacts cs)).
Proof.
  induction cs as [|c cs IH]; simpl; [reflexivity|].
  rewrite map_app, filter_app, map_app, IH. f_equal.
  rewrite map_map. reflexivity.
Qed.

Lemma NoDup_map_filter {A B : Type} (f : A -> B) (keep : A -> bool)
    (l : list A) :
  NoDup (map f l) -> NoDup (map f (filter keep l)).
Proof.
  induction l as [|a l IH]; simpl; intros Hnd; [constructor|].
  inversion Hnd as [|x xs Hnotin Hrest]; subst.
  destruct (keep a); simpl; [|now apply IH].
  constructor; [|now apply IH].
  intros Hin. apply Hnotin. apply in_map_iff in Hin.
  destruct Hin as (y & Hy & Hyin). apply filter_In in Hyin.
  apply in_map_iff. exists y. tauto.
Qed.

Lemma raw_emails_distinct (kw : string) :
  NoDup (map Raw.email (flat_map Raw.contacts (all_companies kw))).
Proof.
  unfold all_companies.
  destruct (Str.str_in "manufacturing" (Str.lower kw));
    destruct (Str.str_in "construction" (Str.lower kw)); simpl;
    repeat (constructor; [simpl; intuition discriminate|]); constructor.
Qed.

(** X1.  Whatever the keywords, the region and the role filter are, no
    two contacts returned by [find_companies_and_contacts] have the same
    email address. *)
Theorem lead_source_emails_are_distinct
    (industry_keywords region : string) (target_roles : option (list string)) :
  NoDup (map email
           (find_companies_and_contacts industry_keywords region target_roles)).
Proof.
  rewrite find_companies_and_contacts_eq, emails_of_filtered.
  apply NoDup_map_filter, raw_emails_distinct.
Qed.

Lemma existsb_map_ext {A B : Type} (f : B -> bool) (g : A -> B)
    (h : A -> bool) (l : list A) :
  (forall a, f (g a) = h a) -> existsb f (map g l) = existsb h l.
Proof.
  intros Hfg. induction l as [|a l IH]; simpl; [reflexivity|].
  now rewrite IH, Hfg.
Qed.

(** X2.  The lookup depends on the keywords and on the requested roles
    only up to letter case, and not at all on the region: lower-casing the
    keywords and every role, and changing the region, gives the same
    contacts. *)
Theorem lead_source_ignores_case_and_region
    (industry_keywords region region' : string)
    (target_roles : option (list string)) :
  find_companies_and_contacts industry_keywords region target_roles
  = find_companies_and_contacts (Str.lower industry_keywords) region'
      (option_map (map Str.lower) target_roles).
Proof.
  rewrite !find_companies_and_contacts_eq.
  unfold all_companies. rewrite lower_idempotent.
  apply flat_map_ext. intros c. f_equal. apply filter_ext. intros p.
  destruct target_roles as [roles|]; simpl; [|reflexivity].
  symmetry. apply existsb_map_ext. intros r. now rewrite lower_idempotent.
Qed.

(** ** Lead source and notifier *)

(** X3.  Every contact that the lead source can return, Sarah Wilson
    apart, is in the notifier's directory under the same name, company and
    role; Sarah Wilson's address is not in the directory, so a
    notification about her carries her address only. *)
Theorem notifier_directory_covers_lead_source
    (industry_keywords region : string) (target_roles : option (list string))
    (c : contact) :
  In c (find_companies_and_contacts industry_keywords region target_roles)
  -> (email c <> "sarah.wilson@example.com"
      -> exists k,
           Notifier.find_contact_by_email (email c) = Some k
           /\ Notifier.k_contact_name k = contact_name c
           /\ Notifier.k_company k = company c
           /\ Notifier.k_role k = role c)
     /\ (email c = "sarah.wilson@example.com"
         -> Notifier.find_contact_by_email (email c) = None).
Proof.
  rewrite find_companies_and_contacts_eq, in_flat_map.
  intros (co & Hco & Hc). apply in_map_iff in Hc.
  destruct Hc as (p & <- & Hp). apply filter_In in Hp. destruct Hp as [Hp _].
  apply all_companies_In in Hco.
  assert (Hco' : In co (manufacturing_companies ++ construction_companies))
    by (apply in_or_app; tauto).
  clear Hco. simpl in Hco'.
  destruct Hco' as [<-|[<-|[<-|[<-|[]]]]]; simpl in Hp;
    destruct Hp as [<-|[<-|[]]]; split; intros He;
    try (exfalso; apply He; reflexivity);
    try discriminate He;
    try reflexivity;
    eexists; (split; [vm_compute; reflexivity|]); repeat split.
Qed.

(** X4.  The notifier's lookup ignores letter case: an address that
    equals a directory address up to case finds that entry, and an entry
    found has the address looked up, up to case. *)
Theorem notifier_lookup_ignores_case (email : string) :
  (forall k, In k Notifier.contacts
             -> Str.lower email = Str.lower (Notifier.k_email k)
             -> Notifier.find_contact_by_email email = Some k)
  /\ (forall k, Notifier.find_contact_by_email email = Some k
                -> In k Notifier.contacts
                   /\ Str.lower (Notifier.k_email k) = Str.lower email)
  /\ Notifier.find_contact_by_email (Str.lower email)
     = Notifier.find_contact_by_email email.
Proof.
  split; [|split].
  - intros k Hk He. unfold Notifier.find_contact_by_email. rewrite He.
    simpl in Hk.
    destruct Hk as [<-|[<-|[<-|[<-|[<-|[<-|[<-|[]]]]]]]]; reflexivity.
  - intros k Hfind. unfold Notifier.find_contact_by_email in Hfind.
    apply find_some in Hfind. destruct Hfind as [Hin He].
    split; [exact Hin|]. now apply String.eqb_eq in He.
  - unfold Notifier.find_contact_by_email. now rewrite lower_idempotent.
Qed.

(** ** Template renderer, continued *)

(** X6.  A contact whose [interests] key is present but holds an empty
    list is not defaulted: the personalized template, which reads
    [interests[0]], raises [IndexError] for it, while the initial and the
    follow-up template still render. *)
Theorem empty_interests_break_personalized_only (c : contact) :
  interests c = Some []
  -> format_email_from_template "personalized" c = Raise IndexError
     /\ (exists text, format_email_from_template "initial" c = Ok text)
     /\ (exists text, format_email_from_template "followup" c = Ok text).
Proof.
  intros Hint. split; [|split].
  - destruct c as [co cs ind web cn ro em li ints news la]; simpl in Hint.
    subst ints. destruct news; vm_compute; reflexivity.
  - apply format_initial_ok.
  - apply format_followup_ok.
Qed.

(** ** Sentiment *)

Lemma count_phrases_le (phrases : list string) (text : string) :
  (count_phrases phrases text <= List.length phrases)%nat.
Proof. unfold count_phrases. apply filter_length_le. Qed.

Lemma count_phrases_head (phrase : string) (phrases : list string)
    (text : string) :
  Str.str_in phrase text = true
  -> (1 <= count_phrases (phrase :: phrases) text)%nat.
Proof.
  intros Hin. unfold count_phrases. simpl. rewrite Hin. simpl. lia.
Qed.

Lemma Zpos_of_nat (n : nat) : n <> O -> Z.pos (Pos.of_nat n) = Z.of_nat n.
Proof.
  destruct n as [|n]; [congruence|]. intros _.
  rewrite <- Pos.of_nat_succ, Zpos_P_of_succ_nat. lia.
Qed.

(** Turns a comparison of rationals over a denominator [Pos.of_nat n],
    [n] not zero, into one of integers. *)
Ltac q_to_z Hnz :=
  unfold Qeq, Qle, Qlt, Qopp; cbn [Qnum Qden];
  try rewrite (Zpos_of_nat _ Hnz); lia.

(** The score as a function of the two counts. *)
Lemma sentiment_score_eq (text : string) :
  let p := positive_phrases_found (analyze_sentiment text) in
  let n := negative_phrases_found (analyze_sentiment text) in
  sentiment_score (analyze_sentiment text)
  = if ((p + n)%nat =? 0)%nat then 0
    else (Z.of_nat p - Z.of_nat n) # Pos.of_nat (p + n).
Proof. reflexivity. Qed.

(** X7.  For every text the score of [analyze_sentiment] lies between -1
    and 1, at most ten positive and eight negative phrases are counted,
    and the verdict follows the counts: no phrase gives score 0 and
    neutral, positive phrases alone give 1 and positive, negative phrases
    alone give -1 and negative. *)
Theorem sentiment_score_is_bounded (text : string) :
  (- (1) <= sentiment_score (analyze_sentiment text) <= 1)%Q
  /\ (positive_phrases_found (analyze_sentiment text) <= 10)%nat
  /\ (negative_phrases_found (analyze_sentiment text) <= 8)%nat
  /\ In (overall_sentiment (analyze_sentiment text))
        ["positive"; "negative"; "neutral"]
  /\ (positive_phrases_found (analyze_sentiment text) = 0%nat
      -> negative_phrases_found (analyze_sentiment text) = 0%nat
      -> sentiment_score (analyze_sentiment text) = 0
         /\ overall_sentiment (analyze_sentiment text) = "neutral")
  /\ (negative_phrases_found (analyze_sentiment text) = 0%nat
      -> (0 < positive_phrases_found (analyze_sentiment text))%nat
      -> (sentiment_score (analyze_sentiment text) == 1)%Q
         /\ overall_sentiment (analyze_sentiment text) = "positive")
  /\ (positive_phrases_found (analyze_sentiment text) = 0%nat
      -> (0 < negative_phrases_found (analyze_sentiment text))%nat
      -> (sentiment_score (analyze_sentiment text) == - (1))%Q
         /\ overall_sentiment (analyze_sentiment text) = "negative").
Proof.
  pose proof (count_phrases_le positive_phrases (Str.lower text)) as Hp.
  pose proof (count_phrases_le negative_phrases (Str.lower text)) as Hn.
  unfold analyze_sentiment. cbn [sentiment_score overall_sentiment
    positive_phrases_found negative_phrases_found].
  set (p := count_phrases positive_phrases (Str.lower text)) in *.
  set (n := count_phrases negative_phrases (Str.lower text)) in *.
  simpl List.length in Hp, Hn.
  split; [|split; [exact Hp|split; [exact Hn|split; [|split; [|split]]]]].
  - destruct (Nat.eqb_spec (p + n) 0) as [Hz|Hnz].
    + split; discriminate.
    + split; q_to_z Hnz.
  - destruct (Py.Qltb (3 # 10) _); [simpl; tauto|].
    destruct (Py.Qltb _ (- (3 # 10))); simpl; tauto.
  - intros Hp0 Hn0. rewrite Hp0, Hn0. simpl. split; reflexivity.
  - intros Hn0 Hpos. rewrite Hn0, Nat.add_0_r.
    destruct (Nat.eqb_spec p 0) as [Hz|Hnz]; [lia|].
    assert (Hs : ((Z.of_nat p - Z.of_nat 0) # Pos.of_nat p == 1)%Q).
    { q_to_z Hnz. }
    split; [exact Hs|].
    unfold Py.Qltb.
    assert (Hle : Qle_bool ((Z.of_nat p - Z.of_nat 0) # Pos.of_nat p) (3 # 10)
                  = false).
    { apply not_true_is_false. intros Hb. apply Qle_bool_iff in Hb.
      rewrite Hs in Hb. revert Hb. unfold Qle, Qopp; cbn [Qnum Qden]. lia. }
    now rewrite Hle.
  - intros Hp0 Hneg. rewrite Hp0, Nat.add_0_l.
    destruct (Nat.eqb_spec n 0) as [Hz|Hnz]; [lia|].
    assert (Hs : ((Z.of_nat 0 - Z.of_nat n) # Pos.of_nat n == - (1))%Q).
    { q_to_z Hnz. }
    split; [exact Hs|].
    unfold Py.Qltb.
    assert (Hle1 : Qle_bool ((Z.of_nat 0 - Z.of_nat n) # Pos.of_nat n) (3 # 10)
                   = true).
    { apply Qle_bool_iff. rewrite Hs. unfold Qle, Qopp; cbn [Qnum Qden]. lia. }
    assert (Hle2 : Qle_bool (- (3 # 10))
                     ((Z.of_nat 0 - Z.of_nat n) # Pos.of_nat n) = false).
    { apply not_true_is_false. intros Hb. apply Qle_bool_iff in Hb.
      rewrite Hs in Hb. revert Hb. unfold Qle, Qopp; cbn [Qnum Qden]. lia. }
    now rewrite Hle1, Hle2.
Qed.

Lemma string_app_assoc (s1 s2 s3 : string) :
  (s1 ++ s2) ++ s3 = s1 ++ s2 ++ s3.
Proof. induction s1 as [|c s1 IH]; simpl; [reflexivity|now rewrite IH]. Qed.

Lemma str_in_longer (pre sub text : string) :
  Str.str_in (pre ++ sub) text = true -> Str.str_in sub text = true.
Proof.
  intros Hin. apply StrFacts.str_in_spec in Hin.
  destruct Hin as (a & b & ->). apply StrFacts.str_in_spec.
  exists (a ++ pre), b.
  now rewrite !string_app_assoc.
Qed.

(** X8.  [analyze_sentiment] ignores letter case.  The negative phrase
    "not interested" contains the positive phrase "interested", so a text
    that says "not interested" is counted on both sides and its score is
    strictly between -1 and 1. *)
Theorem sentiment_ignores_case_and_counts_not_interested_twice (text : string) :
  analyze_sentiment (Str.lower text) = analyze_sentiment text
  /\ (Str.str_in "not interested" (Str.lower text) = true
      -> (1 <= positive_phrases_found (analyze_sentiment text))%nat
         /\ (1 <= negative_phrases_found (analyze_sentiment text))%nat
         /\ (- (1) < sentiment_score (analyze_sentiment text) < 1)%Q).
Proof.
  split.
  - unfold analyze_sentiment. now rewrite lower_idempotent.
  - intros Hin.
    assert (Hp : (1 <= count_phrases positive_phrases (Str.lower text))%nat).
    { apply count_phrases_head. now apply (str_in_longer "not "). }
    assert (Hn : (1 <= count_phrases negative_phrases (Str.lower text))%nat)
      by now apply count_phrases_head.
    unfold analyze_sentiment. cbn [sentiment_score positive_phrases_found
      negative_phrases_found].
    set (p := count_phrases positive_phrases (Str.lower text)) in *.
    set (n := count_phrases negative_phrases (Str.lower text)) in *.
    split; [exact Hp|]. split; [exact Hn|].
    destruct (Nat.eqb_spec (p + n) 0) as [Hz|Hnz]; [lia|].
    split; q_to_z Hnz.
Qed.

(** ** The random source *)

Section RandomFacts.
Context {G : Type} `{RandomSource G}.

Lemma choice_In {A : Type} (d : A) (l : list A) (g : G) :
  l <> [] -> In (fst (choice d l g)) l.
Proof.
  intros Hne. unfold choice.
  pose proof (randbelow_lt (N.of_nat (List.length l)) g) as Hlt.
  destruct (randbelow (N.of_nat (List.length l)) g) as [i g']. cbn [fst] in *.
  apply nth_In.
  assert (0 < N.of_nat (List.length l))%N.
  { destruct l; [congruence|]. simpl List.length. lia. }
  specialize (Hlt H0). lia.
Qed.

Lemma randint_bounds (a b : N) (g : G) :
  (a <= b)%N -> (a <= fst (randint a b g) <= b)%N.
Proof.
  intros Hab. unfold randint.
  pose proof (randbelow_lt (b - a + 1)%N g) as Hlt.
  destruct (randbelow (b - a + 1)%N g) as [i g']. cbn [fst] in *.
  assert (0 < b - a + 1)%N by lia. specialize (Hlt H0). lia.
Qed.

(** *** Enrichment *)

Lemma enrich_one_enriched (c : contact) (g : G) :
  enriched c (fst (enrich_one c g)).
Proof.
  unfold enrich_one.
  destruct (randint 1 3 g) as [k g1].
  destruct (sample "" enrich_interests (N.to_nat k) g1) as [ints g2].
  pose proof (choice_In "" company_news g2) as Hnews.
  destruct (choice "" company_news g2) as [news g3].
  pose proof (randint_bounds 1 30 g3) as Hdays.
  destruct (randint 1 30 g3) as [days g4].
  cbn [fst] in *. unfold enriched. cbn.
  repeat (split; [reflexivity|]).
  split; [now exists ints|]. split.
  - exists news. split; [apply Hnews; discriminate|reflexivity].
  - exists days. split; [apply Hdays; lia|reflexivity].
Qed.

Lemma enrich_one_all (contact_list : list contact) (g : G) :
  Forall2 enriched contact_list (fst (enrich_contact_data contact_list g)).
Proof.
  revert g; induction contact_list as [|c l IH]; intros g; simpl;
    [constructor|].
  pose proof (enrich_one_enriched c g) as Hc.
  destruct (enrich_one c g) as [c' g1]. cbn [fst] in Hc.
  specialize (IH g1). destruct (enrich_contact_data l g1) as [l' g2].
  cbn [fst] in *. now constructor.
Qed.

(** X5.  [enrich_contact_data] returns as many contacts as it is given,
    in the same order; each keeps the eight keys of the lead source and
    has its three optional keys set, whatever they held before: some
    interests, a [recent_news] made of "Company " and one of the seven
    news lines, and a [last_activity] that names a number of days from 1
    to 30. *)
Theorem enrichment_keeps_identity_and_sets_optional_keys
    (contact_list : list contact) (g : G) :
  Forall2 enriched contact_list (fst (enrich_contact_data contact_list g))
  /\ List.length (fst (enrich_contact_data contact_list g))
     = List.length contact_list
  /\ map email (fst (enrich_contact_data contact_list g))
     = map email contact_list.
Proof.
  pose proof (enrich_one_all contact_list g) as Hall.
  split; [exact Hall|]. split.
  - symmetry. exact (Forall2_length Hall).
  - induction Hall as [|c c' l l' Hc Hrest IH]; [reflexivity|].
    simpl. rewrite IH. f_equal. apply Hc.
Qed.

End RandomFacts.

(** ** Sending, continued *)

Lemma str_in_char_app (a : ascii) (s1 s2 : string) :
  Str.str_in (String a "") (s1 ++ s2)
  = orb (Str.str_in (String a "") s1) (Str.str_in (String a "") s2).
Proof.
  induction s1 as [|b s1 IH]; simpl.
  - destruct s2; reflexivity.
  - destruct (Ascii.eqb a b); [reflexivity|exact IH].
Qed.

Lemma replace_char_removes (old : ascii) (new s : string) :
  Str.str_in (String old "") new = false
  -> Str.str_in (String old "") (Str.replace_char old new s) = false.
Proof.
  intros Hnew. induction s as [|c s IH]; simpl; [reflexivity|].
  destruct (Ascii.eqb_spec c old) as [->|Hne].
  - rewrite str_in_char_app, Hnew, IH. reflexivity.
  - simpl. destruct (Ascii.eqb_spec old c) as [<-|_]; [congruence|exact IH].
Qed.

Section MoreSender.
Context {G C : Type} `{RandomSource G} `{Clock C}.

(** The stub never fails: it records the request, draws a five-digit id
    and reports success. *)
Lemma simulate_hubspot_api_call_spec (endpoint : string) (data : api_data)
    (w : World G C) :
  exists r w',
    simulate_hubspot_api_call endpoint data w = (Ok r, w')
    /\ five_digits (id r)
    /\ status r = "success"
    /\ hubspot_calls w' = (hubspot_calls w ++ [(endpoint, data)])%list
    /\ slack_messages w' = slack_messages w
    /\ calendar_events w' = calendar_events w
    /\ notify_calls w' = notify_calls w
    /\ book_calls w' = book_calls w.
Proof.
  unfold simulate_hubspot_api_call. step_world.
  do 2 eexists. split; [reflexivity|]. cbn [id status].
  split; [|repeat split].
  unfold five_digits. apply randint_bounds. lia.
Qed.

Lemma send_body_rendering (template_name : string)
    (data : contact -> string -> api_data)
    (acc : list N) (c : contact) (w : World G C) (text : string) :
  format_email_from_template template_name c = Ok text
  -> exists n w',
       send_body template_name data acc c w = (Ok (acc ++ [n])%list, w')
       /\ five_digits n
       /\ hubspot_calls w'
          = (hubspot_calls w
             ++ [("emails/send", data c (rendered template_name c))])%list
       /\ slack_messages w' = slack_messages w
       /\ calendar_events w' = calendar_events w
       /\ notify_calls w' = notify_calls w
       /\ book_calls w' = book_calls w.
Proof.
  intros Hfmt. unfold send_body, bind, lift, rendered. rewrite Hfmt.
  destruct (simulate_hubspot_api_call_spec "emails/send" (data c text) w)
    as (r & w' & -> & Hid & Hst & Hlogs).
  rewrite Hst. cbn [String.eqb Ascii.eqb Bool.eqb]. unfold ret.
  exists (id r), w'. split; [reflexivity|]. split; [exact Hid|exact Hlogs].
Qed.

(** A loop over contacts that all render: one request and one id for
    each, in order, and nothing else. *)
Lemma send_loop_exact (template_name : string)
    (data : contact -> string -> api_data)
    (cs : list contact) (acc : list N) (w : World G C) :
  (forall c, In c cs
     -> exists text, format_email_from_template template_name c = Ok text)
  -> exists ids,
       fst (foldM (send_body template_name data) cs acc w)
       = Ok (acc ++ ids)%list
       /\ List.length ids = List.length cs
       /\ Forall five_digits ids
       /\ hubspot_calls (snd (foldM (send_body template_name data) cs acc w))
          = (hubspot_calls w
             ++ map (fun c => ("emails/send",
                               data c (rendered template_name c))) cs)%list
       /\ slack_messages (snd (foldM (send_body template_name data) cs acc w))
          = slack_messages w
       /\ calendar_events (snd (foldM (send_body template_name data) cs acc w))
          = calendar_events w
       /\ notify_calls (snd (foldM (send_body template_name data) cs acc w))
          = notify_calls w
       /\ book_calls (snd (foldM (send_body template_name data) cs acc w))
          = book_calls w.
Proof.
  revert acc w; induction cs as [|c cs IH]; intros acc w Hall.
  - exists []. simpl. rewrite !app_nil_r. repeat split. constructor.
  - destruct (Hall c (or_introl eq_refl)) as [text Htext].
    destruct (send_body_rendering template_name data acc c w text Htext)
      as (n & w' & Hb & Hn & Hh & Hs & Hc & Hno & Hbk).
    rewrite (foldM_cons_ok _ _ _ _ _ _ _ Hb).
    destruct (IH (acc ++ [n])%list w') as (ids & Hids & Hlen & Hfive & Hh' & Hs'
                                           & Hc' & Hno' & Hbk').
    { intros c' Hc'. apply Hall. now right. }
    exists (n :: ids). split; [|split; [|split; [|split]]].
    + rewrite Hids. now rewrite <- app_assoc.
    + simpl. now rewrite Hlen.
    + now constructor.
    + rewrite Hh', Hh. simpl. now rewrite <- app_assoc.
    + repeat split; congruence.
Qed.

(** X9.  [send_initial_emails] and [send_followup_emails] never raise.
    They make, in the order of the list, one ["emails/send"] request per
    contact, addressed to the contact with the rendered template, under
    the campaign id of the stage, the follow-up with a thread id; every id
    returned has five digits; no Slack message, calendar event,
    notification or booking is made. *)
Theorem senders_make_one_request_per_contact
    (contacts : list contact) (w : World G C) :
  (exists ids,
      fst (send_initial_emails contacts w) = Ok ids
      /\ List.length ids = List.length contacts
      /\ Forall five_digits ids
      /\ hubspot_calls (snd (send_initial_emails contacts w))
         = (hubspot_calls w
            ++ map (fun c => ("emails/send",
                              mkApiData (email c) (rendered "initial" c)
                                "initial_outreach" None None)) contacts)%list
      /\ slack_messages (snd (send_initial_emails contacts w)) = slack_messages w
      /\ calendar_events (snd (send_initial_emails contacts w))
         = calendar_events w
      /\ notify_calls (snd (send_initial_emails contacts w)) = notify_calls w
      /\ book_calls (snd (send_initial_emails contacts w)) = book_calls w)
  /\ (exists ids,
         fst (send_followup_emails contacts w) = Ok ids
         /\ List.length ids = List.length contacts
         /\ Forall five_digits ids
         /\ hubspot_calls (snd (send_followup_emails contacts w))
            = (hubspot_calls w
               ++ map (fun c => ("emails/send",
                                 mkApiData (email c) (rendered "followup" c)
                                   "followup_outreach" (Some (thread_of c))
                                   None)) contacts)%list
         /\ slack_messages (snd (send_followup_emails contacts w))
            = slack_messages w
         /\ calendar_events (snd (send_followup_emails contacts w))
            = calendar_events w
         /\ notify_calls (snd (send_followup_emails contacts w)) = notify_calls w
         /\ book_calls (snd (send_followup_emails contacts w)) = book_calls w).
Proof.
  split.
  - rewrite send_initial_emails_eq.
    apply (send_loop_exact "initial" initial_data contacts [] w).
    intros c _. apply format_initial_ok.
  - rewrite send_followup_emails_eq.
    apply (send_loop_exact "followup" followup_data contacts [] w).
    intros c _. apply format_followup_ok.
Qed.

(** X10.  The thread id that the follow-up and the personalized sender
    attach for a contact starts with "thread_" and contains no "@",
    whatever the contact's address is. *)
Theorem thread_id_has_no_at_sign (c : contact) :
  Str.startswith "thread_" (thread_of c) = true
  /\ Str.str_in "@" (thread_of c) = false.
Proof.
  unfold thread_of. split; [reflexivity|].
  rewrite str_in_char_app. rewrite replace_char_removes by reflexivity.
  reflexivity.
Qed.

End MoreSender.

(** ** Response classification, continued *)

Lemma subseq_refl {A : Type} (l : list A) : subseq l l.
Proof. induction l; constructor; assumption. Qed.

Lemma subseq_trans {A : Type} (l1 l2 l3 : list A) :
  subseq l1 l2 -> subseq l2 l3 -> subseq l1 l3.
Proof.
  intros H12 H23. revert l1 H12.
  induction H23 as [|a l2 l3 H23 IH|a l2 l3 H23 IH]; intros l1 H12.
  - exact H12.
  - constructor. now apply IH.
  - inversion H12; subst.
    + constructor. now apply IH.
    + apply subseq_take. now apply IH.
Qed.

Lemma subseq_map_filter {A B : Type} (f : A -> B) (keep : A -> bool)
    (l : list A) :
  subseq (map f (filter keep l)) (map f l).
Proof.
  induction l as [|a l IH]; simpl; [constructor|].
  destruct (keep a); simpl; constructor; exact IH.
Qed.

Lemma subseq_length {A : Type} (l1 l2 : list A) :
  subseq l1 l2 -> (List.length l1 <= List.length l2)%nat.
Proof. induction 1; simpl; lia. Qed.

Section MoreClassification.
Context {G C : Type} `{RandomSource G} `{Clock C}.

Lemma fetch_one_well_formed (e : string) (w : World G C) :
  Forall well_formed (fst (fetch_one e [] w)).
Proof.
  unfold fetch_one. step_world.
  repeat match goal with
    | |- context [Py.Qltb ?a ?b] =>
        destruct (Py.Qltb a b); cbn [negb andb fst snd]; step_world
    end;
    repeat (apply Forall_cons || apply Forall_nil); cbn [well_formed];
    try reflexivity;
    try (apply choice_In; discriminate);
    repeat split; intros; try discriminate;
    apply choice_In; discriminate.
Qed.

Lemma simulate_fetch_responses_well_formed (es : list string) (w : World G C) :
  Forall well_formed (fst (simulate_fetch_responses es w)).
Proof.
  revert w; induction es as [|e es IH]; intros w.
  - constructor.
  - rewrite simulate_fetch_responses_cons. cbn [fst].
    apply Forall_app. split; [apply fetch_one_well_formed|apply IH].
Qed.

Lemma simulate_fetch_responses_in_order (es : list string) (w : World G C) :
  subseq (map response_email (fst (simulate_fetch_responses es w))) es.
Proof.
  revert w; induction es as [|e es IH]; intros w.
  - constructor.
  - rewrite simulate_fetch_responses_cons. cbn [fst]. rewrite map_app.
    destruct (fetch_one_shape e w) as [->|(r & -> & Hr & _)]; simpl.
    + constructor. apply IH.
    + rewrite Hr. apply subseq_take. apply IH.
Qed.

(** X11.  Every response that [simulate_fetch_responses] builds is
    consistent: a bounce carries one of the three listed reasons, an
    unsubscribe the reason "recipient_request"; an out-of-office reply
    carries the out-of-office text and is never interested; any other
    reply carries a text from the interested list when it is flagged
    interested and from the other list when it is not.  The responses
    name addresses of the list in the order of the list, at most one for
    each entry. *)
Theorem fetched_responses_are_consistent
    (email_addresses : list string) (w : World G C) :
  Forall well_formed (fst (simulate_fetch_responses email_addresses w))
  /\ subseq
       (map response_email (fst (simulate_fetch_responses email_addresses w)))
       email_addresses.
Proof.
  split.
  - apply simulate_fetch_responses_well_formed.
  - apply simulate_fetch_responses_in_order.
Qed.

(** X12.  [process_responses] passes on, in order, exactly the fetched
    responses that are not out-of-office replies: its result holds no
    out-of-office reply, holds every bounce, unsubscribe and other reply
    that was fetched, names addresses in the order of the list with at
    most one response for each entry, and so is no longer than the list.
    It sends, posts, books and notifies nothing. *)
Theorem processing_drops_only_out_of_office
    (email_addresses : list string) (w : World G C) :
  Forall (fun r => response_is_out_of_office r = false)
    (fst (process_responses email_addresses w))
  /\ (forall r,
         In r (fst (simulate_fetch_responses email_addresses w))
         -> response_is_out_of_office r = false
         -> In r (fst (process_responses email_addresses w)))
  /\ subseq (fst (process_responses email_addresses w))
       (fst (simulate_fetch_responses email_addresses w))
  /\ subseq (map response_email (fst (process_responses email_addresses w)))
       email_addresses
  /\ (List.length (fst (process_responses email_addresses w))
      <= List.length email_addresses)%nat
  /\ same_logs w (snd (process_responses email_addresses w)).
Proof.
  rewrite process_responses_eq. cbn [fst snd].
  assert (Hsub : subseq
            (map response_email
               (filter kept (fst (simulate_fetch_responses email_addresses w))))
            email_addresses).
  { eapply subseq_trans; [apply subseq_map_filter|].
    apply simulate_fetch_responses_in_order. }
  split; [|split; [|split; [|split; [|split]]]].
  - apply Forall_forall. intros r Hr. apply filter_In in Hr.
    destruct Hr as [_ Hk]. unfold kept in Hk.
    now apply negb_true_iff in Hk.
  - intros r Hr Hooo. apply filter_In. split; [exact Hr|].
    unfold kept. now rewrite Hooo.
  - pose proof (subseq_map_filter (fun r : response => r) kept
                  (fst (simulate_fetch_responses email_addresses w))) as Hs.
    now rewrite !map_id in Hs.
  - exact Hsub.
  - apply subseq_length in Hsub. now rewrite length_map in Hsub.
  - apply simulate_fetch_responses_same_logs.
Qed.

End MoreClassification.

(** ** Booking, continued *)

Section MoreBooker.
Context {G C : Type} `{RandomSource G} `{Clock C}.

Lemma datetime_add_days_ordinal (now : Py.datetime) (d : Z) :
  valid_time now
  -> Py.ordinal (Py.datetime_add now (Py.timedelta_days d))
     = (Py.ordinal now + d)%Z.
Proof.
  intros (Hh & Hm & Hs & Hus).
  unfold Py.datetime_add, Py.timedelta_days.
  cbn [Py.ordinal Py.td_days Py.td_seconds Py.td_microseconds].
  assert (Hus0 : ((Py.microsecond now + 0) / 1000000 = 0)%Z)
    by (apply Z.div_small; lia).
  rewrite Hus0.
  assert (Hs0 : ((Py.hour now * 3600 + Py.minute now * 60 + Py.second now
                  + 0 + 0) / 86400 = 0)%Z)
    by (apply Z.div_small; lia).
  rewrite Hs0. lia.
Qed.

(** X13.  When the clock shows a proper time of day, every slot that
    [find_available_slots] returns with its default arguments lies from
    one to seven days after the day of the call: never on the day itself,
    never later than a week. *)
Theorem slots_lie_in_the_coming_week (w : World G C) (s : slot) :
  valid_time (fst (datetime_now (clock w)))
  -> In s (fst (find_available_slots w))
  -> (Py.ordinal (fst (datetime_now (clock w))) + 1
      <= Py.ordinal (start_time s)
      <= Py.ordinal (fst (datetime_now (clock w))) + 7)%Z.
Proof.
  intros Hvalid Hin. unfold find_available_slots in Hin.
  destruct (find_available_slots_in_spec 7 3 w) as [_ Hspec].
  destruct (Hspec s Hin) as (day & h & Hday & _ & _ & ->).
  unfold slot_at. cbn [start_time Py.replace_time Py.ordinal].
  rewrite (datetime_add_days_ordinal _ _ Hvalid).
  assert (Hrange : (1 <= day <= 7)%Z).
  { change (Py.range 1 (7 + 1) 1) with [1; 2; 3; 4; 5; 6; 7]%Z in Hday.
    simpl in Hday. lia. }
  lia.
Qed.

Lemma slots_of_day_length (date : Py.datetime) (hours : list Z)
    (st : list slot * World G C) :
  (List.length (fst (slots_of_day date hours st))
   <= List.length (fst st) + List.length hours)%nat.
Proof.
  unfold slots_of_day.
  revert st; induction hours as [|h hours IH]; intros [acc w].
  - simpl. lia.
  - cbn [fold_left fst snd]. rewrite draw_eq. cbn [fst snd].
    destruct (Py.Qltb (3 # 10) (fst (random (rng w))));
      match goal with
      | |- context [fold_left _ hours ?st] => specialize (IH st)
      end; cbn [fst snd] in IH; rewrite ?length_app in IH; simpl in *; lia.
Qed.

(** The weekdays among the seven days that follow [now]. *)
Lemma five_weekdays_in_a_week (now : Py.datetime) :
  List.length
    (filter (fun day => negb (5 <=? Py.weekday
                                      (Py.datetime_add now
                                         (Py.timedelta_days day)))%Z)
       [1; 2; 3; 4; 5; 6; 7]%Z)
  = 5%nat.
Proof.
  unfold Py.weekday, Py.datetime_add, Py.timedelta_days.
  cbn [Py.ordinal Py.td_days Py.td_seconds Py.td_microseconds].
  set (carry := ((Py.hour now * 3600 + Py.minute now * 60 + Py.second now + 0
                  + (Py.microsecond now + 0) / 1000000) / 86400)%Z).
  set (k := ((Py.ordinal now + carry + 6) mod 7)%Z).
  assert (Hk : (0 <= k < 7)%Z) by (apply Z.mod_pos_bound; lia).
  assert (Hday : forall d,
             ((Py.ordinal now + d + carry + 6) mod 7 = (k + d) mod 7)%Z).
  { intros d. unfold k. rewrite Zplus_mod_idemp_l. f_equal. lia. }
  cbn [filter]. rewrite !Hday.
  assert (Hcases : k = 0%Z \/ k = 1%Z \/ k = 2%Z \/ k = 3%Z \/ k = 4%Z
                   \/ k = 5%Z \/ k = 6%Z) by lia.
  destruct Hcases as [->|[->|[->|[->|[->|[->| ->]]]]]]; reflexivity.
Qed.

(** X14.  Whatever the clock shows and whatever the draws are,
    [find_available_slots] returns at most twenty slots with its default
    arguments: four candidate hours on each of the five weekdays that any
    seven consecutive days hold. *)
Theorem at_most_twenty_slots (w : World G C) :
  (List.length (fst (find_available_slots w)) <= 20)%nat.
Proof.
  unfold find_available_slots, find_available_slots_in. rewrite read_eq.
  set (now := fst (datetime_now (clock w))).
  set (w0 := set_clock (snd (datetime_now (clock w))) w).
  change (Py.range 1 (7 + 1) 1) with [1; 2; 3; 4; 5; 6; 7]%Z.
  change (Py.range 9 17 (8 / 3)) with [9; 11; 13; 15]%Z.
  pose proof (five_weekdays_in_a_week now) as Hfive.
  set (days := [1; 2; 3; 4; 5; 6; 7]%Z) in *.
  set (body := fun (st : list slot * World G C) (day : Z) =>
                 if (5 <=? Py.weekday (Py.datetime_add now (Py.timedelta_days day)))%Z
                 then st
                 else slots_of_day (Py.datetime_add now (Py.timedelta_days day))
                        [9; 11; 13; 15]%Z st).
  assert (Hgen : forall ds (st : list slot * World G C),
             (List.length (fst (fold_left body ds st))
              <= List.length (fst st)
                 + 4 * List.length
                         (filter (fun day =>
                                    negb (5 <=? Py.weekday
                                                  (Py.datetime_add now
                                                     (Py.timedelta_days day)))%Z)
                            ds))%nat).
  { induction ds as [|d ds IH]; intros st; [simpl; lia|].
    cbn [fold_left filter].
    assert (Hb : body st d
                 = if (5 <=? Py.weekday
                               (Py.datetime_add now (Py.timedelta_days d)))%Z
                   then st
                   else slots_of_day
                          (Py.datetime_add now (Py.timedelta_days d))
                          [9; 11; 13; 15]%Z st)
      by reflexivity.
    rewrite Hb. clear Hb.
    destruct (5 <=? Py.weekday (Py.datetime_add now (Py.timedelta_days d)))%Z;
      cbn [negb].
    - apply IH.
    - specialize (IH (slots_of_day (Py.datetime_add now (Py.timedelta_days d))
                        [9; 11; 13; 15]%Z st)).
      pose proof (slots_of_day_length
                    (Py.datetime_add now (Py.timedelta_days d))
                    [9; 11; 13; 15]%Z st) as Hlen.
      simpl List.length in *. lia. }
  specialize (Hgen days ([], w0)). rewrite Hfive in Hgen. exact Hgen.
Qed.

Lemma simulate_calendar_booking_events (email : string) (s : slot)
    (w : World G C) :
  calendar_events (snd (simulate_calendar_booking email s w))
  = (calendar_events w ++ [(email, s)])%list.
Proof. unfold simulate_calendar_booking. step_world. reflexivity. Qed.

(** X15.  [book_meeting] hands at most one event to the calendar stub.
    When it returns [True] it has handed over exactly one, for the address
    it was given and for one of the slots found, a weekday half hour; when
    no slot is found it returns [False] and hands over none.  It sends no
    email and no notification. *)
Theorem booking_books_one_found_slot (email : string) (w : World G C) :
  (fst (book_meeting email w) = true
   -> exists s,
        calendar_events (snd (book_meeting email w))
        = (calendar_events w ++ [(email, s)])%list
        /\ In s (fst (find_available_slots (log_book email w)))
        /\ business_slot s)
  /\ (fst (find_available_slots (log_book email w)) = []
      -> fst (book_meeting email w) = false
         /\ calendar_events (snd (book_meeting email w)) = calendar_events w)
  /\ (calendar_events (snd (book_meeting email w)) = calendar_events w
      \/ exists s,
           calendar_events (snd (book_meeting email w))
           = (calendar_events w ++ [(email, s)])%list)
  /\ hubspot_calls (snd (book_meeting email w)) = hubspot_calls w
  /\ notify_calls (snd (book_meeting email w)) = notify_calls w.
Proof.
  destruct (book_meeting_logs email w) as (Hn & _ & Hh & _).
  assert (Hbusiness : forall s,
             In s (fst (find_available_slots (log_book email w)))
             -> business_slot s).
  { intros s Hin. unfold find_available_slots in Hin.
    destruct (find_available_slots_in_spec 7 3 (log_book email w))
      as [_ Hspec].
    destruct (Hspec s Hin) as (day & h & _ & Hh' & Hwd & ->).
    rewrite default_hours in Hh'. now apply slot_at_business. }
  assert (Hcal : calendar_events
                   (snd (find_available_slots (log_book email w)))
                 = calendar_events w).
  { unfold find_available_slots.
    destruct (find_available_slots_in_spec 7 3 (log_book email w))
      as [(_ & _ & Hc & _) _].
    exact Hc. }
  split; [|split; [|split; [|split; assumption]]];
    unfold book_meeting;
    destruct (find_available_slots (log_book email w)) as [slots w1];
    cbn [fst snd] in *;
    destruct slots as [|s0 slots]; cbn [fst snd];
    try discriminate; try (now split); try (now left).
  - rewrite draw_eq.
    pose proof (choice_In no_slot (s0 :: slots) (rng w1)) as Hchoice.
    set (chosen := fst (choice no_slot (s0 :: slots) (rng w1))) in *.
    set (w2 := set_rng (snd (choice no_slot (s0 :: slots) (rng w1))) w1).
    pose proof (simulate_calendar_booking_events email chosen w2) as Hev.
    destruct (simulate_calendar_booking email chosen w2) as [success w3].
    cbn [snd] in Hev. intros _. exists chosen.
    split; [|split; [apply Hchoice; discriminate
                    |apply Hbusiness, Hchoice; discriminate]].
    destruct success; cbn [snd]; rewrite Hev; unfold w2; cbn; now rewrite Hcal.
  - rewrite draw_eq.
    set (chosen := fst (choice no_slot (s0 :: slots) (rng w1))).
    set (w2 := set_rng (snd (choice no_slot (s0 :: slots) (rng w1))) w1).
    pose proof (simulate_calendar_booking_events email chosen w2) as Hev.
    destruct (simulate_calendar_booking email chosen w2) as [success w3].
    cbn [snd] in Hev. right. exists chosen.
    destruct success; cbn [snd]; rewrite Hev; unfold w2; cbn; now rewrite Hcal.
Qed.

End MoreBooker.

(** ** Notification *)



Section MoreSlack.
Context {G C : Type}.


End MoreSlack.

(** ** The campaign store, continued *)

Lemma extends_refl {A : Type} (l : list A) : extends l l.
Proof. exists []. now rewrite app_nil_r. Qed.

Lemma extends_trans {A : Type} (l1 l2 l3 : list A) :
  extends l1 l2 -> extends l2 l3 -> extends l1 l3.
Proof.
  intros [a ->] [b ->]. exists (a ++ b)%list. now rewrite app_assoc.
Qed.

Lemma mem_extends (a : string) (l l' : list string) :
  extends l l' -> Str.mem a l = true -> Str.mem a l' = true.
Proof.
  intros [added ->] Hin. unfold Str.mem in *.
  rewrite existsb_app, Hin. reflexivity.
Qed.

Section MoreCampaign.
Context {G C : Type} `{RandomSource G} `{Clock C}.

Lemma later_refl (cd : Store) : later cd cd.
Proof. unfold later. repeat split; apply extends_refl. Qed.

Lemma later_trans (cd1 cd2 cd3 : Store) :
  later cd1 cd2 -> later cd2 cd3 -> later cd1 cd3.
Proof.
  unfold later.
  intros (a1 & a2 & a3 & a4 & a5 & a6 & a7) (b1 & b2 & b3 & b4 & b5 & b6 & b7).
  repeat split; try congruence; eapply extends_trans; eassumption.
Qed.

Lemma later_eligible (cd cd' : Store) :
  later cd cd' -> incl (eligible_contacts cd') (eligible_contacts cd).
Proof.
  intros (Hc & _ & Hb & Hu & Hr & _) c Hin.
  unfold eligible_contacts in *. apply filter_In in Hin.
  destruct Hin as [Hin Hel]. rewrite Hc in Hin.
  apply filter_In. split; [exact Hin|].
  unfold is_eligible in *.
  apply andb_prop in Hel. destruct Hel as [H1 Hel].
  apply andb_prop in Hel. destruct Hel as [H2 H3].
  apply negb_true_iff in H1, H2, H3.
  assert (Hno : forall l l', extends l l' -> Str.mem (email c) l' = false
                             -> Str.mem (email c) l = false).
  { intros l l' Hext Hfalse. destruct (Str.mem (email c) l) eqn:Hm;
      [|reflexivity].
    rewrite (mem_extends _ _ _ Hext Hm) in Hfalse. discriminate. }
  rewrite (Hno _ _ Hb H1), (Hno _ _ Hu H2), (Hno _ _ Hr H3). reflexivity.
Qed.

Lemma check_responses_later (cd : Store) (w : World G C) :
  later cd (fst (check_responses cd w))
  /\ hubspot_calls (snd (check_responses cd w)) = hubspot_calls w.
Proof.
  destruct (check_responses_handled cd w)
    as (Hc & Hs & Hb & Hu & Hr & Hi & (booked & Hm & _) & _ & _ & Hh).
  destruct (process_responses_same_logs (sent_initial cd) w) as (Hh0 & _).
  cbn [fst snd] in *. split.
  - unfold later. repeat split; try assumption; eexists; eassumption.
  - now rewrite Hh, Hh0.
Qed.

Lemma check_responses_contained (cd : Store) (w : World G C) :
  contained cd -> contained (fst (check_responses cd w)).
Proof.
  intros [Hm Hi].
  destruct (check_responses_handled cd w)
    as (_ & _ & _ & _ & Hr & Hi' & (booked & Hm' & Hb) & _).
  cbn [fst] in Hr, Hi', Hm'. unfold contained.
  rewrite Hr, Hi', Hm'. split.
  - intros x Hx. apply in_app_or in Hx. apply in_or_app.
    destruct Hx as [Hx|Hx]; [left; now apply Hm|right; now apply Hb].
  - intros x Hx. apply in_app_or in Hx. apply in_or_app.
    destruct Hx as [Hx|Hx]; [left; now apply Hi|right].
    now apply addresses_interested_replied.
Qed.

Lemma check_responses_nothing_sent (cd : Store) (w : World G C) :
  sent_initial cd = [] -> check_responses cd w = (cd, w).
Proof.
  intros Hs. unfold check_responses, process_responses. rewrite Hs.
  reflexivity.
Qed.

(** X17.  However many response checks run, they only add to the
    campaign store: the contacts and the sent list stay as they are, every
    bucket keeps what it held and may get more at its end, the eligible
    list can only lose contacts, the containment of the buckets is kept,
    and no email is sent.  While no initial email has been sent a check
    changes nothing and consumes nothing. *)
Theorem checks_only_add_to_the_store (n : nat) (cd : Store) (w : World G C) :
  later cd (fst (check_responses_n n cd w))
  /\ incl (eligible_contacts (fst (check_responses_n n cd w)))
       (eligible_contacts cd)
  /\ hubspot_calls (snd (check_responses_n n cd w)) = hubspot_calls w
  /\ (contained cd -> contained (fst (check_responses_n n cd w)))
  /\ (sent_initial cd = [] -> check_responses_n n cd w = (cd, w)).
Proof.
  assert (Hmain : forall n cd (w : World G C),
             later cd (fst (check_responses_n n cd w))
             /\ hubspot_calls (snd (check_responses_n n cd w)) = hubspot_calls w
             /\ (contained cd -> contained (fst (check_responses_n n cd w)))
             /\ (sent_initial cd = [] -> check_responses_n n cd w = (cd, w))).
  { clear n cd w. induction n as [|n IH]; intros cd w.
    - simpl. split; [apply later_refl|]. split; [reflexivity|].
      split; [intros Hc; exact Hc|intros _; reflexivity].
    - cbn [check_responses_n].
      destruct (check_responses_later cd w) as [Hl Hh].
      pose proof (check_responses_contained cd w) as Hc.
      pose proof (check_responses_nothing_sent cd w) as He.
      destruct (check_responses cd w) as [cd1 w1]. cbn [fst snd] in *.
      destruct (IH cd1 w1) as (Hl' & Hh' & Hc' & He').
      split; [eapply later_trans; eassumption|].
      split; [congruence|]. split; [auto|].
      intros Hs. specialize (He Hs). injection He as -> ->. now apply He'. }
  destruct (Hmain n cd w) as (Hl & Hh & Hc & He).
  split; [exact Hl|]. split; [now apply later_eligible|].
  split; [exact Hh|]. split; assumption.
Qed.

(** *** The stages *)

Lemma bind_ret_fst {S A : Type} (c : M S A) (s : S) (a : A) :
  fst (c s) = Ok a -> fst ((_ <- c ;; ret tt) s) = Ok tt.
Proof.
  unfold bind, ret. destruct (c s) as [[a'|e] s']; simpl; congruence.
Qed.

(** X18.  [day3_followup] never raises.  It makes one follow-up request,
    in the order of the contact list, for each contact whose address is in
    none of the bounced, unsubscribed and replied buckets, and no request
    for any other contact; it posts, books and notifies nothing. *)
Theorem followup_goes_to_exactly_the_eligible (cd : Store) (w : World G C) :
  fst (day3_followup cd w) = Ok tt
  /\ hubspot_calls (snd (day3_followup cd w))
     = (hubspot_calls w
        ++ map (fun c => ("emails/send",
                          mkApiData (email c) (rendered "followup" c)
                            "followup_outreach" (Some (thread_of c)) None))
             (filter (fun c =>
                        negb (Str.mem (email c) (bounced cd))
                        && negb (Str.mem (email c) (unsubscribed cd))
                        && negb (Str.mem (email c) (replied cd)))
                (contacts cd)))%list
  /\ slack_messages (snd (day3_followup cd w)) = slack_messages w
  /\ calendar_events (snd (day3_followup cd w)) = calendar_events w
  /\ notify_calls (snd (day3_followup cd w)) = notify_calls w
  /\ book_calls (snd (day3_followup cd w)) = book_calls w.
Proof.
  assert (Hfilter : eligible_contacts cd
                    = filter (fun c =>
                                negb (Str.mem (email c) (bounced cd))
                                && negb (Str.mem (email c) (unsubscribed cd))
                                && negb (Str.mem (email c) (replied cd)))
                        (contacts cd)).
  { unfold eligible_contacts, is_eligible. apply filter_ext. intros c.
    now rewrite andb_assoc. }
  rewrite <- Hfilter.
  destruct (send_loop_exact "followup" followup_data (eligible_contacts cd) []
              w (fun c _ => format_followup_ok c))
    as (ids & Hids & _ & _ & Hh & Hs & Hc & Hn & Hb).
  unfold day3_followup. rewrite bind_ret_snd.
  rewrite send_followup_emails_eq.
  split; [|repeat split; assumption].
  apply (bind_ret_fst (foldM (send_body "followup" followup_data)
                         (eligible_contacts cd) []) w ids).
  exact Hids.
Qed.

Lemma write_back_spec (keep : contact -> bool) (R : contact -> contact -> Prop)
    (all updated : list contact) :
  Forall2 R (filter keep all) updated
  -> Forall2 (fun c c' => if keep c then R c c' else c' = c)
       all (write_back keep all updated).
Proof.
  revert updated; induction all as [|c all IH]; intros updated Hup; simpl.
  - constructor.
  - simpl in Hup. destruct (keep c) eqn:Hk.
    + inversion Hup as [|x y xs ys Hxy Hrest]; subst.
      constructor; [now rewrite Hk|now apply IH].
    + constructor; [now rewrite Hk|now apply IH].
Qed.

(** X19.  [day4_personalized] leaves the sent list and every bucket as
    they are.  In the contact list each contact that was eligible has been
    enriched in place, keeping its eight lead-source keys, and each other
    contact is untouched; so the addresses, their order and the
    eligibility of every contact are the same after the stage. *)
Theorem personalized_stage_enriches_the_eligible (cd : Store) (w : World G C) :
  sent_initial (fst (day4_personalized cd w)) = sent_initial cd
  /\ bounced (fst (day4_personalized cd w)) = bounced cd
  /\ unsubscribed (fst (day4_personalized cd w)) = unsubscribed cd
  /\ replied (fst (day4_personalized cd w)) = replied cd
  /\ interested (fst (day4_personalized cd w)) = interested cd
  /\ meetings_booked (fst (day4_personalized cd w)) = meetings_booked cd
  /\ Forall2 (fun c c' => if is_eligible cd c then enriched c c' else c' = c)
       (contacts cd) (contacts (fst (day4_personalized cd w)))
  /\ map email (contacts (fst (day4_personalized cd w)))
     = map email (contacts cd)
  /\ map email (eligible_contacts (fst (day4_personalized cd w)))
     = map email (eligible_contacts cd).
Proof.
  assert (Hstore : fst (day4_personalized cd w)
                   = mkStore
                       (write_back (is_eligible cd) (contacts cd)
                          (fst (enrich_contact_data (eligible_contacts cd)
                                  (rng w))))
                       (sent_initial cd) (bounced cd) (unsubscribed cd)
                       (replied cd) (interested cd) (meetings_booked cd)).
  { unfold day4_personalized, send_personalized_emails. rewrite draw_eq.
    reflexivity. }
  rewrite Hstore. cbn [sent_initial bounced unsubscribed replied interested
                       meetings_booked contacts].
  repeat (split; [reflexivity|]).
  pose proof (write_back_spec (is_eligible cd) enriched (contacts cd) _
                (enrich_one_all (eligible_contacts cd) (rng w))) as Hwb.
  set (cs' := write_back (is_eligible cd) (contacts cd)
                (fst (enrich_contact_data (eligible_contacts cd) (rng w)))) in *.
  assert (Hsame : Forall2 (fun c c' => email c' = email c
                                       /\ is_eligible cd c' = is_eligible cd c)
                    (contacts cd) cs').
  { eapply Forall2_impl; [|exact Hwb]. intros c c' Hcc'. cbv beta in Hcc'.
    assert (He : email c' = email c).
    { destruct (is_eligible cd c); [apply Hcc'|now subst]. }
    split; [exact He|]. unfold is_eligible. now rewrite He. }
  split; [exact Hwb|].
  clearbody cs'. clear Hwb Hstore.
  assert (Hel' : eligible_contacts
                   (mkStore cs' (sent_initial cd) (bounced cd)
                      (unsubscribed cd) (replied cd) (interested cd)
                      (meetings_booked cd))
                 = filter (is_eligible cd) cs') by reflexivity.
  rewrite Hel'. clear Hel'. unfold eligible_contacts.
  induction Hsame as [|c c' l l' [He Hel] Hrest IH]; [now split|].
  destruct IH as [IH1 IH2]. split.
  - simpl. now rewrite He, IH1.
  - simpl. rewrite Hel. destruct (is_eligible cd c); simpl;
      [now rewrite He, IH2|exact IH2].
Qed.

End MoreCampaign.

(** ** The demonstration run *)

Section DemoRun.
Context {G C : Type} `{RandomSource G} `{Clock C}.

Lemma same_emails (l l' : list contact) :
  Forall2 (fun c c' => email c' = email c) l l' -> map email l' = map email l.
Proof.
  induction 1 as [|c c' l l' Hc Hrest IH]; [reflexivity|].
  simpl. now rewrite Hc, IH.
Qed.

Lemma check_responses_books (cd : Store) (w : World G C) :
  books_in_order cd -> books_in_order (fst (check_responses cd w)).
Proof.
  intros (Hc & Hs & Hcont).
  destruct (check_responses_later cd w) as [(Hc' & Hs' & _) _].
  split; [now rewrite Hc'|]. split; [now rewrite Hs'|].
  now apply check_responses_contained.
Qed.

Lemma day4_personalized_books (cd : Store) (w : World G C) :
  books_in_order cd -> books_in_order (fst (day4_personalized cd w)).
Proof.
  intros (Hc & Hs & Hcont).
  assert (Hstore : fst (day4_personalized cd w)
                   = mkStore
                       (write_back (is_eligible cd) (contacts cd)
                          (fst (enrich_contact_data (eligible_contacts cd)
                                  (rng w))))
                       (sent_initial cd) (bounced cd) (unsubscribed cd)
                       (replied cd) (interested cd) (meetings_booked cd)).
  { unfold day4_personalized, send_personalized_emails. rewrite draw_eq.
    reflexivity. }
  pose proof (write_back_spec (is_eligible cd) enriched (contacts cd) _
                (enrich_one_all (eligible_contacts cd) (rng w))) as Hwb.
  rewrite Hstore. split; [|split; [exact Hs|exact Hcont]].
  cbn [contacts]. rewrite <- Hc. apply same_emails.
  eapply Forall2_impl; [|exact Hwb]. intros c c' Hcc'. cbv beta in Hcc'.
  destruct (is_eligible cd c); [apply Hcc'|now subst].
Qed.

(** X20.  A run of [demo_mode] from the empty store ends, whatever the
    draws and the clock are, with the eight contacts of the two data sets
    in the store, their eight distinct addresses, in the same order, as
    the sent list, and the buckets contained in each other
    ([meetings_booked] in [interested] in [replied]); the first eight
    requests of the run are the initial emails to those addresses. *)
Theorem demo_run_keeps_its_books (w : World G C) :
  map email (contacts (fst (demo_mode campaign_data w))) = campaign_addresses
  /\ sent_initial (fst (demo_mode campaign_data w)) = campaign_addresses
  /\ NoDup (sent_initial (fst (demo_mode campaign_data w)))
  /\ contained (fst (demo_mode campaign_data w))
  /\ exists first rest,
       hubspot_calls (snd (snd (demo_mode campaign_data w)))
       = (hubspot_calls w ++ first ++ rest)%list
       /\ recipients first = campaign_addresses
       /\ Forall (fun call => campaign_id (snd call) = "initial_outreach") first.
Proof.
  assert (Hnodup : NoDup campaign_addresses).
  { unfold campaign_addresses.
    repeat (constructor; [simpl; intuition discriminate|]); constructor. }
  set (companies := find_companies_and_contacts "manufacturing, construction"
                      "Australia" (Some target_roles_of_campaign)).
  assert (Hemails : map email companies = campaign_addresses)
    by (vm_compute; reflexivity).
  assert (Hgoal : books_in_order (fst (demo_mode campaign_data w))
                  /\ exists first rest,
                       hubspot_calls (snd (snd (demo_mode campaign_data w)))
                       = (hubspot_calls w ++ first ++ rest)%list
                       /\ recipients first = campaign_addresses
                       /\ Forall (fun call =>
                                    campaign_id (snd call) = "initial_outreach")
                            first).
  { unfold demo_mode. fold companies.
    destruct (send_loop_exact "initial" initial_data companies [] w
                (fun c _ => format_initial_ok c))
      as (ids & Hids & _ & _ & Hh & _).
    rewrite <- send_initial_emails_eq in Hids, Hh.
    destruct (send_initial_emails companies w) as [[ids'|e] w1];
      cbn [fst snd] in Hids, Hh; [|discriminate Hids].
    cbn [contacts sent_initial bounced unsubscribed replied interested
         meetings_booked campaign_data].
    set (first := map (fun c => ("emails/send",
                                 initial_data c (rendered "initial" c)))
                    companies) in *.
    assert (Hfirst : recipients first = campaign_addresses).
    { unfold first, recipients. rewrite map_map. exact Hemails. }
    assert (Hcamp : Forall (fun call =>
                              campaign_id (snd call) = "initial_outreach")
                      first).
    { unfold first. apply Forall_forall. intros call Hin.
      apply in_map_iff in Hin. destruct Hin as (c & <- & _). reflexivity. }
    set (cd1 := mkStore companies (map email companies) [] [] [] [] []).
    assert (Hb1 : books_in_order cd1).
    { split; [exact Hemails|]. split; [exact Hemails|].
      split; intros x []. }
    pose proof (check_responses_books cd1 w1 Hb1) as Hb2.
    destruct (check_responses_later cd1 w1) as [_ Hh2].
    destruct (check_responses cd1 w1) as [cd2 w2]. cbn [fst snd] in Hb2, Hh2.
    destruct (send_loop_spec "followup" followup_data (fun _ _ => eq_refl)
                (eligible_contacts cd2) [] w2) as (sent3 & Hh3 & _).
    rewrite <- send_followup_emails_eq in Hh3.
    assert (Hh3' : hubspot_calls (snd (day3_followup cd2 w2))
                   = (hubspot_calls w2 ++ sent3)%list).
    { unfold day3_followup. now rewrite bind_ret_snd. }
    destruct (day3_followup cd2 w2) as [[u|e] w3]; cbn [fst snd] in *.
    - pose proof (check_responses_books cd2 w3 Hb2) as Hb4.
      destruct (check_responses_later cd2 w3) as [_ Hh4].
      destruct (check_responses cd2 w3) as [cd4 w4]. cbn [fst snd] in Hb4, Hh4.
      pose proof (day4_personalized_books cd4 w4 Hb4) as Hb5.
      assert (Hh5 : exists sent5,
                 hubspot_calls (snd (snd (day4_personalized cd4 w4)))
                 = (hubspot_calls w4 ++ sent5)%list).
      { unfold day4_personalized.
        rewrite (surjective_pairing
                   (send_personalized_emails (eligible_contacts cd4) w4)).
        cbn [snd]. rewrite bind_ret_snd. unfold lift. cbn [snd].
        rewrite send_personalized_emails_eq.
        destruct (send_loop_spec "personalized" personalized_data
                    (fun _ _ => eq_refl)
                    (fst (enrich_contact_data (eligible_contacts cd4) (rng w4)))
                    []
                    (set_rng (snd (enrich_contact_data (eligible_contacts cd4)
                                     (rng w4))) w4))
          as (sent5 & Hs5 & _).
        exists sent5. exact Hs5. }
      destruct Hh5 as [sent5 Hh5].
      destruct (day4_personalized cd4 w4) as [cd5 [[u5|e5] w5]];
        cbn [fst snd] in *.
      + pose proof (check_responses_books cd5 w5 Hb5) as Hb6.
        destruct (check_responses_later cd5 w5) as [_ Hh6].
        destruct (check_responses cd5 w5) as [cd6 w6].
        cbn [fst snd] in *. split; [exact Hb6|].
        exists first, (sent3 ++ sent5)%list.
        split; [|split; assumption].
        rewrite Hh6, Hh5, Hh4, Hh3', Hh2, Hh. now rewrite <- !app_assoc.
      + split; [exact Hb5|].
        exists first, (sent3 ++ sent5)%list.
        split; [|split; assumption].
        rewrite Hh5, Hh4, Hh3', Hh2, Hh. now rewrite <- !app_assoc.
    - split; [exact Hb2|].
      exists first, sent3. split; [|split; assumption].
      rewrite Hh3', Hh2, Hh. now rewrite <- !app_assoc. }
  destruct Hgoal as [(Hc & Hs & Hcont) Hcalls].
  split; [exact Hc|]. split; [exact Hs|].
  split; [now rewrite Hs|]. split; [exact Hcont|exact Hcalls].
Qed.

End DemoRun.

(** ** Worked instances of the further properties *)

(** X3 at work: John Doe, returned for the keyword "manufacturing", is
    in the notifier's directory under his name, company and role. *)
Lemma john_is_in_the_directory :
  In Demo.john (find_companies_and_contacts "manufacturing" "Australia" None)
  /\ exists k,
       Notifier.find_contact_by_email (email Demo.john) = Some k
       /\ Notifier.k_contact_name k = contact_name Demo.john
       /\ Notifier.k_company k = company Demo.john
       /\ Notifier.k_role k = role Demo.john.
Proof.
  assert (Hin : In Demo.john
                  (find_companies_and_contacts "manufacturing" "Australia" None))
    by (vm_compute; left; reflexivity).
  split; [exact Hin|].
  apply (proj1 (notifier_directory_covers_lead_source
                  "manufacturing" "Australia" None Demo.john Hin)).
  discriminate.
Defined.

(** X6 at work: John with an empty interest list. *)
Lemma john_without_interests_breaks_personalized :
  interests (set_interests [] Demo.john) = Some []
  /\ format_email_from_template "personalized" (set_interests [] Demo.john)
     = Raise IndexError.
Proof.
  split; [reflexivity|].
  apply (proj1 (empty_interests_break_personalized_only
                  (set_interests [] Demo.john) eq_refl)).
Defined.

(** X8 at work: a reply that only says "Not interested" counts one
    phrase on each side. *)
Lemma not_interested_counts_on_both_sides :
  Str.str_in "not interested" (Str.lower "Not interested") = true
  /\ (1 <= positive_phrases_found (analyze_sentiment "Not interested"))%nat
  /\ (1 <= negative_phrases_found (analyze_sentiment "Not interested"))%nat.
Proof.
  split; [reflexivity|].
  destruct (proj2 (sentiment_ignores_case_and_counts_not_interested_twice
                     "Not interested") eq_refl) as (Hp & Hn & _).
  split; assumption.
Defined.

(** X13 at work: on Monday 2024-01-01 at ten the first slot found is on
    the next day. *)
Lemma first_slot_is_in_the_coming_week :
  valid_time (fst (datetime_now (clock (Demo.world_of Demo.draws_interested 0))))
  /\ In (slot_at (Py.mkDatetime 738887 10 0 0 0) 9)
       (fst (find_available_slots (Demo.world_of Demo.draws_interested 0)))
  /\ (738886 + 1
      <= Py.ordinal (start_time (slot_at (Py.mkDatetime 738887 10 0 0 0) 9))
      <= 738886 + 7)%Z.
Proof.
  assert (Hvalid : valid_time
                     (fst (datetime_now
                             (clock (Demo.world_of Demo.draws_interested 0)))))
    by (unfold valid_time; simpl; lia).
  assert (Hin : In (slot_at (Py.mkDatetime 738887 10 0 0 0) 9)
                  (fst (find_available_slots
                          (Demo.world_of Demo.draws_interested 0))))
    by (vm_compute; left; reflexivity).
  split; [exact Hvalid|]. split; [exact Hin|].
  exact (slots_lie_in_the_coming_week
           (Demo.world_of Demo.draws_interested 0) _ Hvalid Hin).
Defined.

(** X15 at work: with every slot free and a booking draw of one half, the
    booking for John succeeds and one event is handed over. *)
Lemma booking_for_john_succeeds :
  fst (book_meeting Demo.john_email (Demo.world_of (fun _ => 1 # 2) 0)) = true
  /\ exists s,
       calendar_events
         (snd (book_meeting Demo.john_email (Demo.world_of (fun _ => 1 # 2) 0)))
       = ([] ++ [(Demo.john_email, s)])%list
       /\ business_slot s.
Proof.
  assert (Htrue : fst (book_meeting Demo.john_email
                         (Demo.world_of (fun _ => 1 # 2) 0)) = true)
    by (vm_compute; reflexivity).
  split; [exact Htrue|].
  destruct (proj1 (booking_books_one_found_slot Demo.john_email
                     (Demo.world_of (fun _ => 1 # 2) 0)) Htrue)
    as (s & Hev & _ & Hb).
  exists s. split; assumption.
Defined.
